(** * File-tailing core of pkg/stanza/fileconsumer

    A shallow embedding of two functions of the file consumer and the
    properties they satisfy:

    - [reader.NewReaderFromMetadata] (package fileconsumer/internal/reader),
      which rebuilds a [Reader] from a file handle and restored [Metadata],
      with [reader.NewReader] and [reader.NewFingerprint] beside it;
    - [fileconsumer.readLostFiles] (file_other.go), which finds the readers
      of the previous poll that no current reader continues and drains them.

    Go's [int] and [int64] are [Z]: the code only compares them.  A Go map
    is a [gmap], wrapped in [option] where the nil map matters.  What the
    operating system answers (reads, stat, attribute resolution) is a
    section variable of the function that asks. *)

From Stdlib Require Import ZArith.
From Stdlib.Strings Require Import Byte Ascii.
From stdpp Require Import base decidable option list strings gmap.

Open Scope Z_scope.

#[global] Instance byte_eq_dec : EqDecision byte := Byte.byte_eq_dec.

(** ** Values shared by the packages *)

(** A Go [error]: made by [errors.New msg], or by
    [fmt.Errorf("<prefix>: %w", cause)] around another error. *)
Inductive error : Type :=
| errors_New (msg : string)
| fmt_Errorf_w (prefix : string) (cause : error).

(** The dynamic values stored in [map[string]any] attribute maps. *)
Inductive any : Type :=
| any_string (s : string)
| any_int64 (n : Z)
| any_bool (b : bool).

(** Go's [os.File] as the code uses it: a handle is its name
    ([file.Name()]) and the descriptor that tells two handles to the same
    path apart. *)
Record File : Type := { Name : string; fd : N }.

(** What a call returns: a value, a Go error, or a runtime panic. *)
Inductive Outcome (A : Type) : Type :=
| Ok (a : A)
| Err (e : error)
| Panic (msg : string).
Arguments Ok {A} a.
Arguments Err {A} e.
Arguments Panic {A} msg.

(** ** Package fingerprint *)
Module fingerprint.

(** Modelled from the spec: the [Fingerprint] type is declared in another
    file of the repository; section 3 gives it as an ordered byte sequence
    taken from the head of the file. *)
Record Fingerprint : Type := { firstBytes : list byte }.

(** Modelled from the spec: [Len()], the number of bytes captured. *)
Definition Len (f : Fingerprint) : Z := Z.of_nat (length (firstBytes f)).

(** Modelled from the spec: [StartsWith(other)] is true iff [other] is a
    byte-prefix of the receiver (section 4.1). *)
Definition StartsWith (f old : Fingerprint) : bool :=
  bool_decide (firstBytes old `prefix_of` firstBytes f).

End fingerprint.

(** ** Package header *)
Module header.

(** Modelled from the spec: [header.Config] and [header.Reader] are
    declared in another file of the repository, and section 4.2 gives only their
    role: a header-parsing configuration, and the header reader attached
    for it.  They are passed along here, never looked into: a configuration
    is kept as the pattern that names it, a header reader as the
    configuration it was built from. *)
Record Config : Type := { pattern : string }.
Record Reader : Type := { config : Config }.

End header.

(** ** Package reader *)
Module reader.
Import fingerprint.

Definition DefaultMaxLogSize : Z := 1024 * 1024.
Definition DefaultMaxBatchSize : Z := 100.

(** Modelled from the spec: the [Metadata] struct is declared in another
    file of the repository; these are the fields the factory reads and
    writes (section 3).  [FileAttributes = None] is the nil map.  The tokenizer
    and flush states are closed over by the split functions and are not
    touched during construction. *)
Record Metadata : Type := {
  Fingerprint : fingerprint.Fingerprint;
  Offset : Z;
  FileAttributes : option (gmap string any);
  HeaderFinalized : bool;
  FileType : string;
}.

(** Modelled from the spec: the [Reader] struct is declared in another
    file of the repository; these are the fields the factory fills in,
    without the function values (decoder, split functions, emit callback, buffer
    pool).  [Reader] embeds [*Metadata]: [Reader_Metadata] is the state of
    the object that pointer refers to, so [r.Offset] is
    [Offset (Reader_Metadata r)]. *)
Record Reader : Type := {
  Reader_Metadata : Metadata;
  file : File;
  fileName : string;
  fingerprintSize : Z;
  initialBufferSize : Z;
  maxLogSize : Z;
  headerReader : option header.Reader;
  deleteAtEOF : bool;
  compression : string;
  acquireFSLock : bool;
  maxBatchSize : Z;
}.

(** Modelled from the spec: [GetFileName] and [NameEquals] are declared
    in another file of the repository; section 4.3 gives the comparison as
    [new.Name == old.Name]. *)
Definition GetFileName (r : Reader) : string := fileName r.
Definition NameEquals (r other : Reader) : bool :=
  bool_decide (fileName r = fileName other).

(** [Factory], without its function values and collaborators (telemetry
    settings, buffer pool, encoding, split, trim and emit functions,
    attribute resolver). *)
Record Factory : Type := {
  HeaderConfig : option header.Config;
  FromBeginning : bool;
  FingerprintSize : Z;
  InitialBufferSize : Z;
  MaxLogSize : Z;
  FlushTimeout : Z;
  DeleteAtEOF : bool;
  IncludeFileRecordNumber : bool;
  IncludeFileRecordOffset : bool;
  Compression : string;
  AcquireFSLock : bool;
}.

(** The records [NewReaderFromMetadata] hands to the logger, one
    constructor per call site, with the zap fields of that site. *)
Inductive LogEntry : Type :=
| Warn_offset_exceeds_file_size (path : string) (metadata_offset current_file_size : Z)
| Debug_starting_at_0 (path : string)
| Debug_tailing_from_EOF (path : string) (file_size : Z)
| Debug_resuming_from_saved_offset (path : string) (saved_offset file_size : Z).

(** The state a call works on: the [Metadata] object the caller passed by
    pointer, and the log. *)
Record State : Type := { meta : Metadata; logged : list LogEntry }.

(** State threaded through the call, with early return. *)
Definition M (A : Type) : Type := State -> State * Outcome A.

Definition ret {A} (a : A) : M A := fun s => (s, Ok a).
Definition bind {A B} (c : M A) (k : A -> M B) : M B :=
  fun s =>
    match c s with
    | (s', Ok a) => k a s'
    | (s', Err e) => (s', Err e)
    | (s', Panic msg) => (s', Panic msg)
    end.
Definition fail {A} (e : error) : M A := fun s => (s, Err e).
Definition panic {A} (msg : string) : M A := fun s => (s, Panic msg).
Definition get : M Metadata := fun s => (s, Ok (meta s)).
Definition put (m : Metadata) : M unit :=
  fun s => ({| meta := m; logged := logged s |}, Ok tt).
Definition logger (e : LogEntry) : M unit :=
  fun s => ({| meta := meta s; logged := logged s ++ [e] |}, Ok tt).
(** [v, err := call; if err != nil { return nil, wrap(err) }] *)
Definition try {A} (wrap : error -> error) (res : error + A) : M A :=
  match res with
  | inl err => fail (wrap err)
  | inr v => ret v
  end.
Definition when (b : bool) (c : M unit) : M unit := if b then c else ret tt.

Declare Scope go_scope.
Delimit Scope go_scope with go.
Notation "x <- c ;; k" := (bind c (fun x => k))
  (at level 100, c at next level, right associativity) : go_scope.
Notation "c ;;; k" := (bind c (fun _ : unit => k))
  (at level 100, right associativity) : go_scope.

Definition set_Fingerprint (fp : fingerprint.Fingerprint) (m : Metadata) : Metadata :=
  {| Fingerprint := fp; Offset := Offset m; FileAttributes := FileAttributes m;
     HeaderFinalized := HeaderFinalized m; FileType := FileType m |}.
Definition set_Offset (o : Z) (m : Metadata) : Metadata :=
  {| Fingerprint := Fingerprint m; Offset := o; FileAttributes := FileAttributes m;
     HeaderFinalized := HeaderFinalized m; FileType := FileType m |}.
Definition set_FileAttributes (a : option (gmap string any)) (m : Metadata) : Metadata :=
  {| Fingerprint := Fingerprint m; Offset := Offset m; FileAttributes := a;
     HeaderFinalized := HeaderFinalized m; FileType := FileType m |}.

(** [m.FileAttributes[k]]: reading a nil map finds nothing. *)
Definition attribute (m : Metadata) (k : string) : option any :=
  match FileAttributes m with
  | Some a => a !! k
  | None => None
  end.

(** Go's [maps.Copy(dst, src)]: [for k, v := range src { dst[k] = v }].
    Keys of [src] overwrite, the others stay; assigning into a nil [dst]
    panics, which takes a non-empty [src]. *)
Definition maps_Copy (dst : option (gmap string any)) (src : gmap string any)
  : Outcome (option (gmap string any)) :=
  match dst with
  | Some d => Ok (Some (src ∪ d))
  | None =>
      if bool_decide (src = ∅) then Ok None
      else Panic "assignment to entry in nil map"
  end.

Section Factory.
(** [fingerprint.NewFromFile(file, size, decompress)]: the fingerprint
    read from the head of the file, or the I/O error. *)
Variable NewFromFile : File -> Z -> bool -> error + fingerprint.Fingerprint.
(** [file.Stat()]: the error, or [inf.Size()]. *)
Variable Stat : File -> error + Z.
(** [header.NewReader(settings, config)]. *)
Variable header_NewReader : header.Config -> error + header.Reader.
(** [f.Attributes.Resolve(file)]. *)
Variable Resolve : File -> error + gmap string any.

Open Scope go_scope.

(** Lines 101-111: a stored fingerprint longer than the configured size
    is checked against a shorter one read again from the file. *)
Definition handleFingerprintLength (f : Factory) (file : File) : M unit :=
  m <- get ;;
  if Len (Fingerprint m) >? FingerprintSize f then
    shorter <- try (fmt_Errorf_w "reread fingerprint")
                   (NewFromFile file (FingerprintSize f)
                      (negb (bool_decide (Compression f = EmptyString)))) ;;
    if negb (StartsWith (Fingerprint m) shorter) then
      fail (errors_New "file truncated")
    else
      put (set_Fingerprint shorter m)
  else ret tt.

(** Lines 113-154: stat, copy-truncate reset, choice of the starting
    offset, [r.Offset = start] (a write to [m.Offset], through the
    embedded pointer). *)
Definition determineStartingOffset (f : Factory) (file : File) : M unit :=
  fileSize <- try (fmt_Errorf_w "stat") (Stat file) ;;
  m <- get ;;
  when (Offset m >? fileSize)
    (logger (Warn_offset_exceeds_file_size (Name file) (Offset m) fileSize) ;;;
     put (set_Offset 0 m)) ;;;
  m <- get ;;
  let start := Offset m in
  start <- (if start =? 0 then
              if FromBeginning f then
                logger (Debug_starting_at_0 (Name file)) ;;; ret 0
              else
                logger (Debug_tailing_from_EOF (Name file) fileSize) ;;; ret fileSize
            else
              logger (Debug_resuming_from_saved_offset (Name file) start fileSize) ;;;
              ret start) ;;
  put (set_Offset start m).

(** Lines 161-168: the optional header reader. *)
Definition attachHeaderReader (f : Factory) : M (option header.Reader) :=
  m <- get ;;
  match HeaderConfig f with
  | Some cfg =>
      if negb (HeaderFinalized m) then
        hr <- try (fun err => err) (header_NewReader cfg) ;;
        ret (Some hr)
      else ret None
  | None => ret None
  end.

(** Lines 170-175: attributes are resolved again and copied into the
    map the Metadata already holds. *)
Definition resolveFileAttributes (file : File) : M unit :=
  attributes <- try (fun err => err) (Resolve file) ;;
  m <- get ;;
  match maps_Copy (FileAttributes m) attributes with
  | Ok a => put (set_FileAttributes a m)
  | Err e => fail e
  | Panic msg => panic msg
  end.

(** Lines 113-177: what the function does once the fingerprint is settled.
    Lines 156-159 compose the split functions; they cannot fail and write
    no field kept here.  The reader returned holds the pointer [m]: it is
    given with the state of that object at the return. *)
Definition continueConstruction (f : Factory) (file : File) : M Reader :=
  determineStartingOffset f file ;;;
  hr <- attachHeaderReader f ;;
  resolveFileAttributes file ;;;
  m <- get ;;
  ret {| Reader_Metadata := m;
         file := file;
         fileName := Name file;
         fingerprintSize := FingerprintSize f;
         initialBufferSize := InitialBufferSize f;
         maxLogSize := MaxLogSize f;
         headerReader := hr;
         deleteAtEOF := DeleteAtEOF f;
         compression := Compression f;
         acquireFSLock := AcquireFSLock f;
         maxBatchSize := DefaultMaxBatchSize |}.

(** [Factory.NewReaderFromMetadata(file, m)], which returns a reader or an
    error, run on the state of the object [m] points to. *)
Definition NewReaderFromMetadata_M (f : Factory) (file : File) : M Reader :=
  handleFingerprintLength f file ;;;
  continueConstruction f file.

(** The call as its caller sees it: the Metadata object after the call,
    what was logged, and what was returned. *)
Definition NewReaderFromMetadata (f : Factory) (file : File) (m : Metadata)
  : Metadata * list LogEntry * Outcome Reader :=
  let '(s, out) := NewReaderFromMetadata_M f file {| meta := m; logged := [] |} in
  (meta s, logged s, out).

(** [func (f *Factory) NewFingerprint(file)], lines 56-58: the fingerprint
    of the file at the configured size, read as the length check of
    [NewReaderFromMetadata] reads it. *)
Definition NewFingerprint (f : Factory) (file : File)
  : error + fingerprint.Fingerprint :=
  NewFromFile file (FingerprintSize f)
    (negb (bool_decide (Compression f = EmptyString))).

(** The loop of Go's [filepath.Ext]: [before] holds the bytes of the path
    up to index [i], nearest first, [after] the bytes behind [i].  It walks
    back until a separator and returns the path from the first dot met. *)
Fixpoint Ext_scan (before : list Ascii.ascii) (after : string) : string :=
  match before with
  | [] => EmptyString
  | c :: more =>
      if bool_decide (c = "/"%char) then EmptyString
      else if bool_decide (c = "."%char) then String c after
      else Ext_scan more (String c after)
  end.

(** Go's [filepath.Ext(path)] where the separator is the slash: the suffix
    of the last path element that starts at its last dot, empty if that
    element has no dot. *)
Definition filepath_Ext (path : string) : string :=
  Ext_scan (rev (String.list_ascii_of_string path)) EmptyString.

(** [gzipExtension], a constant declared in another file of the package. *)
Variable gzipExtension : string.

(** [f.Attributes.Resolve(file)] as [NewReader] asks it at line 61, before
    [NewReaderFromMetadata] asks again at line 171: the file system is read
    twice, and the two answers are two parameters.  [None] is a nil map
    returned without error. *)
Variable ResolveNew : File -> error + option (gmap string any).

(** [func (f *Factory) NewReader(file, fp)], lines 60-80: what is logged
    and what is returned.  The Metadata is allocated here and reaches the
    caller only inside the reader.  Its tokenizer and flush states (the
    latter stamped with [time.Now()]) are not among the fields kept. *)
Definition NewReader (f : Factory) (file : File) (fp : fingerprint.Fingerprint)
  : list LogEntry * Outcome Reader :=
  match ResolveNew file with
  | inl err => ([], Err err)
  | inr attributes =>
      let filetype :=
        if bool_decide (filepath_Ext (Name file) = gzipExtension)
        then gzipExtension else EmptyString in
      let m := {| Fingerprint := fp;
                  Offset := 0;
                  FileAttributes := attributes;
                  HeaderFinalized := false;
                  FileType := filetype |} in
      let '(_, log, out) := NewReaderFromMetadata f file m in
      (log, out)
  end.

End Factory.

End reader.

(** ** Package fileconsumer *)
Module fileconsumer.

(** Modelled from the spec: the tracker is declared outside the files at
    hand; section 3 gives it as the ordered readers of the last completed
    poll and of the poll in progress. *)
Record Tracker : Type := {
  PreviousPollFiles : list reader.Reader;
  CurrentPollFiles : list reader.Reader;
}.

(** The parts of [Manager] that [readLostFiles] reads. *)
Record Manager : Type := {
  readerFactory : reader.Factory;
  tracker : Tracker;
}.

(** The debug records of [readLostFiles], one constructor per call site.
    Each carries the readers its zap fields (paths, fingerprint lengths and
    heads) are computed from.  [Debug_lost_check] opens every pass of the
    inner loop: it is the record of a partner being examined. *)
Inductive LogEntry : Type :=
| Debug_lost_check (oldReader newReader : reader.Reader)
| Debug_startswith_matched (oldReader newReader : reader.Reader)
| Debug_rotated_truncated (oldReader : reader.Reader)
| Debug_rotated_moved (oldReader : reader.Reader)
| Debug_reading_lost_file (lostReader : reader.Reader).

(** What a call of [readLostFiles] does: the debug log, the [lostReaders]
    slice, and the readers handed to a worker goroutine that calls
    [ReadToEnd] and is waited for ([lostWG.Wait()]), in the order the
    workers are started.  The interleaving of the workers is not part of
    this model. *)
Record Result : Type := {
  debugLog : list LogEntry;
  lostReaders : list reader.Reader;
  readToEnd : list reader.Reader;
}.

(** The partners a log records as examined, in order. *)
Fixpoint examined (log : list LogEntry) : list reader.Reader :=
  match log with
  | [] => []
  | Debug_lost_check _ newReader :: rest => newReader :: examined rest
  | _ :: rest => examined rest
  end.

Section Reconciler.
(** [oldReader.Validate()], declared in another file of the repository:
    whether the content now behind the reader's handle still matches the
    fingerprint the reader retains (section 4.3).  It reads the file
    system, so its answer is a parameter of the poll. *)
Variable Validate : reader.Reader -> bool.

(** The inner loop of lines 30-62 for one [oldReader]: the log, and
    whether the loop left through [continue OUTER] (the reader is cleared)
    instead of running off the end of the current files. *)
Fixpoint scanCurrentPollFiles (oldReader : reader.Reader)
    (currentPollFiles : list reader.Reader) : list LogEntry * bool :=
  match currentPollFiles with
  | [] => ([], false)
  | newReader :: rest =>
      let check := Debug_lost_check oldReader newReader in
      if fingerprint.StartsWith
           (reader.Fingerprint (reader.Reader_Metadata newReader))
           (reader.Fingerprint (reader.Reader_Metadata oldReader)) then
        ([check; Debug_startswith_matched oldReader newReader], true)
      else if negb (reader.NameEquals newReader oldReader) then
        let '(log, cleared) := scanCurrentPollFiles oldReader rest in
        (check :: log, cleared)
      else if negb (Validate oldReader) then
        ([check; Debug_rotated_truncated oldReader], true)
      else
        let '(log, cleared) := scanCurrentPollFiles oldReader rest in
        (check :: Debug_rotated_moved oldReader :: log, cleared)
  end.

(** One pass of the outer loop of lines 29-64, on the log and the
    [lostReaders] slice built so far. *)
Definition checkOldReader (currentPollFiles : list reader.Reader)
    (acc : list LogEntry * list reader.Reader) (oldReader : reader.Reader)
  : list LogEntry * list reader.Reader :=
  let '(log, lost) := acc in
  let '(log', cleared) := scanCurrentPollFiles oldReader currentPollFiles in
  (log ++ log', if cleared then lost else lost ++ [oldReader]).

(** [func (m *Manager) readLostFiles(ctx)]. *)
Definition readLostFiles (m : Manager) : Result :=
  if reader.DeleteAtEOF (readerFactory m) then
    {| debugLog := []; lostReaders := []; readToEnd := [] |}
  else
    let previousPollFiles := PreviousPollFiles (tracker m) in
    let '(log, lost) :=
      fold_left (checkOldReader (CurrentPollFiles (tracker m)))
                previousPollFiles ([], []) in
    {| debugLog := log ++ map Debug_reading_lost_file lost;
       lostReaders := lost;
       readToEnd := lost |}.

End Reconciler.

End fileconsumer.

(** ** Concrete polls and calls

    Inputs on which the definitions are run below. *)
Module Scenario.

Definition fp (bs : list byte) : fingerprint.Fingerprint :=
  {| fingerprint.firstBytes := bs |}.

Definition metadata (bs : list byte) (offset : Z) : reader.Metadata :=
  {| reader.Fingerprint := fp bs;
     reader.Offset := offset;
     reader.FileAttributes := Some {[ "log.file.name" := any_string "app.log" ]};
     reader.HeaderFinalized := false;
     reader.FileType := EmptyString |}.

(** A reader as a tracker holds it: path, descriptor, fingerprint, offset. *)
Definition tracked (path : string) (descriptor : N) (bs : list byte) (offset : Z)
  : reader.Reader :=
  {| reader.Reader_Metadata := metadata bs offset;
     reader.file := {| Name := path; fd := descriptor |};
     reader.fileName := path;
     reader.fingerprintSize := 1000;
     reader.initialBufferSize := 16384;
     reader.maxLogSize := reader.DefaultMaxLogSize;
     reader.headerReader := None;
     reader.deleteAtEOF := false;
     reader.compression := EmptyString;
     reader.acquireFSLock := false;
     reader.maxBatchSize := reader.DefaultMaxBatchSize |}.

Definition factory (fromBeginning deleteAtEOF : bool) (fingerprintSize : Z)
    (headerConfig : option header.Config) : reader.Factory :=
  {| reader.HeaderConfig := headerConfig;
     reader.FromBeginning := fromBeginning;
     reader.FingerprintSize := fingerprintSize;
     reader.InitialBufferSize := 16384;
     reader.MaxLogSize := reader.DefaultMaxLogSize;
     reader.FlushTimeout := 500;
     reader.DeleteAtEOF := deleteAtEOF;
     reader.IncludeFileRecordNumber := false;
     reader.IncludeFileRecordOffset := false;
     reader.Compression := EmptyString;
     reader.AcquireFSLock := false |}.

Definition manager (deleteAtEOF : bool) (previous current : list reader.Reader)
  : fileconsumer.Manager :=
  {| fileconsumer.readerFactory := factory true deleteAtEOF 1000 None;
     fileconsumer.tracker :=
       {| fileconsumer.PreviousPollFiles := previous;
          fileconsumer.CurrentPollFiles := current |} |}.

(** app.log held "ab" at the last poll. *)
Definition old_ab : reader.Reader := tracked "app.log" 3 [x61; x62] 2.
(** The same path now starts with "abc": the file grew. *)
Definition new_abc : reader.Reader := tracked "app.log" 3 [x61; x62; x63] 0.
(** The same path now holds only "a": a new file took the name. *)
Definition new_a : reader.Reader := tracked "app.log" 4 [x61] 0.
(** Another path, with other content. *)
Definition new_other : reader.Reader := tracked "other.log" 5 [x7a] 0.

(** The old handle still reads what the reader fingerprinted (the file was
    moved away), or no longer does (it was truncated in place). *)
Definition moved (_ : reader.Reader) : bool := true.
Definition truncated (_ : reader.Reader) : bool := false.

Definition app_log : File := {| Name := "app.log"; fd := 3 |}.
Definition header_cfg : header.Config := {| header.pattern := "^#" |}.

(** Answers of the operating system and of the collaborators. *)
Definition reread_ab (_ : File) (_ : Z) (_ : bool) : error + fingerprint.Fingerprint :=
  inr (fp [x61; x62]).
Definition reread_zz (_ : File) (_ : Z) (_ : bool) : error + fingerprint.Fingerprint :=
  inr (fp [x7a; x7a]).
Definition stat_200 (_ : File) : error + Z := inr 200.
Definition stat_fails (_ : File) : error + Z := inl (errors_New "bad file descriptor").
Definition header_ok (c : header.Config) : error + header.Reader :=
  inr {| header.config := c |}.
Definition header_fails (_ : header.Config) : error + header.Reader :=
  inl (errors_New "failed to build pipeline").
Definition resolve_owner (_ : File) : error + gmap string any :=
  inr {[ "log.file.owner.name" := any_string "root" ]}.
Definition resolve_fails (_ : File) : error + gmap string any :=
  inl (errors_New "resolve file path").

(** A compressed file in a directory, and what the resolver answers when a
    reader is first made for a file. *)
Definition app_log_gz : File := {| Name := "logs.d/app.log.gz"; fd := 6 |}.
Definition resolve_name (file : File) : error + option (gmap string any) :=
  inr (Some {[ "log.file.name" := any_string (Name file) ]}).
Definition resolve_nil (_ : File) : error + option (gmap string any) := inr None.
Definition resolve_nothing (_ : File) : error + gmap string any := inr ∅.

End Scenario.

(** * Properties of the lost-file reconciler *)
Section ReconcilerFacts.
Import fileconsumer.

Variable Validate : reader.Reader -> bool.

Local Abbreviation fpOf r := (reader.Fingerprint (reader.Reader_Metadata r)).
Local Abbreviation scan := (scanCurrentPollFiles Validate).

(** The inner loop leaves through [continue OUTER] exactly when some
    partner continues the old fingerprint, or some partner has the old name
    while the old handle no longer validates. *)
Lemma scan_cleared_iff (oldReader : reader.Reader) (current : list reader.Reader) :
  (scan oldReader current).2 = true <->
  (exists newReader, newReader ∈ current /\
      fingerprint.StartsWith (fpOf newReader) (fpOf oldReader) = true) \/
  (exists newReader, newReader ∈ current /\
      reader.NameEquals newReader oldReader = true /\ Validate oldReader = false).
Proof.
  induction current as [|n rest IH]; simpl.
  - split; [discriminate|].
    intros [(x & Hx & _)|(x & Hx & _)]; inversion Hx.
  - destruct (fingerprint.StartsWith (fpOf n) (fpOf oldReader)) eqn:Hsw; simpl.
    { split; [|reflexivity]. intros _. left. exists n. split; [left|assumption]. }
    destruct (reader.NameEquals n oldReader) eqn:Hname; simpl.
    + destruct (Validate oldReader) eqn:Hval; simpl.
      * destruct (scan oldReader rest) as [log cleared]; simpl in *.
        rewrite IH. split.
        -- intros [(x & Hx & H)|(x & Hx & H & H')].
           ++ left. exists x. split; [by right|assumption].
           ++ discriminate.
        -- intros [(x & Hx & H)|(x & Hx & H & H')]; [|discriminate].
           apply elem_of_cons in Hx as [->|Hx]; [congruence|].
           left. exists x. by split.
      * split; [|reflexivity]. intros _. right. exists n.
        split; [left|by split].
    + destruct (scan oldReader rest) as [log cleared]; simpl in *.
      rewrite IH. split.
      * intros [(x & Hx & H)|(x & Hx & H & H')].
        -- left. exists x. split; [by right|assumption].
        -- right. exists x. split; [by right|by split].
      * intros [(x & Hx & H)|(x & Hx & H & H')].
        -- apply elem_of_cons in Hx as [->|Hx]; [congruence|].
           left. exists x. by split.
        -- apply elem_of_cons in Hx as [->|Hx]; [congruence|].
           right. exists x. by split.
Qed.

(** The outer loop appends the scan logs in order and keeps, in order, the
    old readers whose scan ran off the end. *)
Lemma fold_checkOldReader (current previous : list reader.Reader)
    (log : list LogEntry) (lost : list reader.Reader) :
  fold_left (checkOldReader Validate current) previous (log, lost) =
  (log ++ concat (map (fun o => (scan o current).1) previous),
   lost ++ filter (fun o => (scan o current).2 = false) previous).
Proof.
  revert log lost.
  induction previous as [|o rest IH]; intros log lost; simpl.
  - by rewrite !app_nil_r.
  - destruct (scan o current) as [log' cleared] eqn:Hscan.
    rewrite IH, filter_cons, Hscan.
    destruct cleared.
    + rewrite decide_False by discriminate. by rewrite <- app_assoc.
    + rewrite decide_True by reflexivity.
      by rewrite <- !app_assoc.
Qed.

Lemma readLostFiles_unfold (m : Manager) :
  reader.DeleteAtEOF (readerFactory m) = false ->
  readLostFiles Validate m =
  let lost := filter (fun o => (scan o (CurrentPollFiles (tracker m))).2 = false)
                     (PreviousPollFiles (tracker m)) in
  {| debugLog :=
       concat (map (fun o => (scan o (CurrentPollFiles (tracker m))).1)
                   (PreviousPollFiles (tracker m)))
       ++ map Debug_reading_lost_file lost;
     lostReaders := lost;
     readToEnd := lost |}.
Proof.
  intros Hd. unfold readLostFiles. rewrite Hd.
  rewrite fold_checkOldReader. reflexivity.
Qed.

(** An old reader is in the lost set exactly when it is a previous-poll
    reader that no partner cleared. *)
Lemma elem_of_lostReaders (m : Manager) (oldReader : reader.Reader) :
  reader.DeleteAtEOF (readerFactory m) = false ->
  oldReader ∈ lostReaders (readLostFiles Validate m) <->
  oldReader ∈ PreviousPollFiles (tracker m) /\
  (scan oldReader (CurrentPollFiles (tracker m))).2 = false.
Proof.
  intros Hd. rewrite (readLostFiles_unfold m Hd). simpl.
  rewrite list_elem_of_filter. tauto.
Qed.

Lemma lostReaders_DeleteAtEOF (m : Manager) :
  reader.DeleteAtEOF (readerFactory m) = true ->
  lostReaders (readLostFiles Validate m) = [] /\
  debugLog (readLostFiles Validate m) = [].
Proof. intros Hd. unfold readLostFiles. by rewrite Hd. Qed.

(** Every worker drains a lost reader, and every lost reader has its
    worker. *)
Lemma readToEnd_lostReaders (m : Manager) :
  readToEnd (readLostFiles Validate m) = lostReaders (readLostFiles Validate m).
Proof.
  unfold readLostFiles.
  destruct (reader.DeleteAtEOF (readerFactory m)); [reflexivity|].
  by destruct (fold_left _ _ _).
Qed.

(** A partner that continues the old fingerprint keeps the old reader out
    of the lost set, wherever it stands among the current files. *)
Lemma prefix_partner_not_lost (m : Manager) (oldReader newReader : reader.Reader) :
  newReader ∈ CurrentPollFiles (tracker m) ->
  fingerprint.StartsWith (fpOf newReader) (fpOf oldReader) = true ->
  oldReader ∉ lostReaders (readLostFiles Validate m).
Proof.
  intros Hnew Hsw Hin.
  destruct (reader.DeleteAtEOF (readerFactory m)) eqn:Hd.
  - destruct (lostReaders_DeleteAtEOF m Hd) as [Hl _].
    rewrite Hl in Hin. inversion Hin.
  - apply (elem_of_lostReaders m oldReader Hd) in Hin as [_ Hscan].
    assert ((scan oldReader (CurrentPollFiles (tracker m))).2 = true) as Hc.
    { apply scan_cleared_iff. left. by exists newReader. }
    congruence.
Qed.

(** The partners examined for an old reader are the current files up to
    the one the scan stops at. *)
Lemma examined_scan_prefix (oldReader : reader.Reader) (current : list reader.Reader) :
  examined (scan oldReader current).1 `prefix_of` current.
Proof.
  induction current as [|n rest IH]; simpl; [done|].
  destruct (fingerprint.StartsWith _ _); simpl.
  { apply prefix_cons, prefix_nil. }
  destruct (reader.NameEquals n oldReader); simpl.
  - destruct (Validate oldReader); simpl.
    + destruct (scan oldReader rest); simpl in *. by apply prefix_cons.
    + apply prefix_cons, prefix_nil.
  - destruct (scan oldReader rest); simpl in *. by apply prefix_cons.
Qed.

(** The scan never goes past the first partner that continues the old
    fingerprint. *)
Lemma examined_scan_first (oldReader : reader.Reader) (current : list reader.Reader)
    (i : nat) (first : reader.Reader) :
  list_find (fun n => fingerprint.StartsWith (fpOf n) (fpOf oldReader) = true) current
    = Some (i, first) ->
  examined (scan oldReader current).1 `prefix_of` take (S i) current.
Proof.
  revert i.
  induction current as [|n rest IH]; intros i; simpl; [discriminate|].
  destruct (fingerprint.StartsWith (fpOf n) (fpOf oldReader)) eqn:Hsw; simpl.
  { intros _. apply prefix_cons, prefix_nil. }
  destruct (list_find _ rest) as [[j x]|] eqn:Hfind; simpl; [|discriminate].
  intros [= <- <-].
  specialize (IH j eq_refl).
  destruct (reader.NameEquals n oldReader); simpl.
  - destruct (Validate oldReader); simpl.
    + destruct (scan oldReader rest); simpl in *. by apply prefix_cons.
    + apply prefix_cons, prefix_nil.
  - destruct (scan oldReader rest); simpl in *. by apply prefix_cons.
Qed.

(** While the old handle validates, only such a partner ends the scan: it
    stops exactly there. *)
Lemma examined_scan_exact (oldReader : reader.Reader) (current : list reader.Reader)
    (i : nat) (first : reader.Reader) :
  list_find (fun n => fingerprint.StartsWith (fpOf n) (fpOf oldReader) = true) current
    = Some (i, first) ->
  Validate oldReader = true ->
  examined (scan oldReader current).1 = take (S i) current.
Proof.
  intros Hfind Hval. revert i Hfind.
  induction current as [|n rest IH]; intros i; simpl; [discriminate|].
  destruct (fingerprint.StartsWith (fpOf n) (fpOf oldReader)) eqn:Hsw; simpl.
  { by intros [= <- <-]. }
  destruct (list_find _ rest) as [[j x]|] eqn:Hfind; simpl; [|discriminate].
  intros [= <- <-].
  specialize (IH j eq_refl). rewrite Hval.
  destruct (reader.NameEquals n oldReader); simpl;
    destruct (scan oldReader rest); simpl in *; by rewrite IH.
Qed.

Lemma lost_check_examined (log : list LogEntry) (o n : reader.Reader) :
  Debug_lost_check o n ∈ log -> n ∈ examined log.
Proof.
  induction log as [|e log IH]; intros Hin; [inversion Hin|].
  apply elem_of_cons in Hin as [<-|Hin]; simpl; [left|].
  destruct e; try right; auto.
Qed.

(** The records of one scan are all about its own old reader. *)
Lemma lost_check_scan_old (oldReader o n : reader.Reader) (current : list reader.Reader) :
  Debug_lost_check o n ∈ (scan oldReader current).1 -> o = oldReader.
Proof.
  induction current as [|x rest IH]; simpl; [intros H; inversion H|].
  destruct (fingerprint.StartsWith _ _); simpl.
  { intros H. repeat (apply elem_of_cons in H as [H|H]; [congruence|]). inversion H. }
  destruct (reader.NameEquals x oldReader); simpl.
  - destruct (Validate oldReader); simpl.
    + destruct (scan oldReader rest); simpl in *.
      intros H. repeat (apply elem_of_cons in H as [H|H]; [congruence|]). auto.
    + intros H. repeat (apply elem_of_cons in H as [H|H]; [congruence|]). inversion H.
  - destruct (scan oldReader rest); simpl in *.
    intros H. apply elem_of_cons in H as [H|H]; [congruence|]. auto.
Qed.

(** A partner the log of the whole call records for [oldReader] was
    examined by the scan of [oldReader]. *)
Lemma lost_check_readLostFiles (m : Manager) (oldReader n : reader.Reader) :
  Debug_lost_check oldReader n ∈ debugLog (readLostFiles Validate m) ->
  n ∈ examined (scan oldReader (CurrentPollFiles (tracker m))).1.
Proof.
  destruct (reader.DeleteAtEOF (readerFactory m)) eqn:Hd.
  - destruct (lostReaders_DeleteAtEOF m Hd) as [_ Hl]. rewrite Hl.
    intros H. inversion H.
  - rewrite (readLostFiles_unfold m Hd). simpl.
    rewrite elem_of_app. intros [H|H].
    + apply list_elem_of_In, in_concat in H as (log & Hlog & H).
      apply in_map_iff in Hlog as (o & <- & _).
      apply list_elem_of_In in H.
      pose proof (lost_check_scan_old _ _ _ _ H) as <-.
      by apply lost_check_examined in H.
    + apply list_elem_of_In, in_map_iff in H as (x & Hx & _). discriminate.
Qed.

End ReconcilerFacts.

(** * What the reconciler guarantees *)
Section ReconcilerClaims.
Import fileconsumer.

Variable Validate : reader.Reader -> bool.

Local Abbreviation fpOf r := (reader.Fingerprint (reader.Reader_Metadata r)).
Local Abbreviation scan := (scanCurrentPollFiles Validate).

(** C1.  If some current reader's fingerprint starts with the fingerprint
    of a previous-poll reader [oldReader], then [oldReader] is not appended
    to the lost set, and no partner standing after the first such current
    reader is examined for it: the partners examined are an initial part of
    the current files that ends at that reader at the latest (exactly at it
    while [oldReader] validates; a same-name partner met earlier ends the
    scan there when it does not), and every lost-check record for
    [oldReader] in the log of the call is about one of them. *)
Theorem readLostFiles_prefix_partner_stops_scan
    (m : Manager) (oldReader newReader : reader.Reader) :
  oldReader ∈ PreviousPollFiles (tracker m) ->
  newReader ∈ CurrentPollFiles (tracker m) ->
  fingerprint.StartsWith (fpOf newReader) (fpOf oldReader) = true ->
  (oldReader ∉ lostReaders (readLostFiles Validate m)) /\
  exists (i : nat) (first : reader.Reader),
    list_find (fun n => fingerprint.StartsWith (fpOf n) (fpOf oldReader) = true)
              (CurrentPollFiles (tracker m)) = Some (i, first) /\
    (examined (scan oldReader (CurrentPollFiles (tracker m))).1
       `prefix_of` take (S i) (CurrentPollFiles (tracker m))) /\
    (Validate oldReader = true ->
     examined (scan oldReader (CurrentPollFiles (tracker m))).1
     = take (S i) (CurrentPollFiles (tracker m))) /\
    forall n, Debug_lost_check oldReader n ∈ debugLog (readLostFiles Validate m) ->
              n ∈ take (S i) (CurrentPollFiles (tracker m)).
Proof.
  intros _ Hnew Hsw. split.
  - by apply (prefix_partner_not_lost Validate m oldReader newReader).
  - destruct (list_find_elem_of
                (fun n => fingerprint.StartsWith (fpOf n) (fpOf oldReader) = true)
                _ _ Hnew Hsw) as [[i first] Hfind].
    exists i, first. split; [exact Hfind|].
    pose proof (examined_scan_first Validate _ _ _ _ Hfind) as Hpre.
    split; [exact Hpre|].
    split; [by apply (examined_scan_exact Validate _ _ _ _ Hfind)|].
    intros n Hn. apply lost_check_readLostFiles in Hn.
    destruct Hpre as [k ->]. apply elem_of_app. by left.
Qed.

(** C5.  When reconciliation runs and some current reader has the file
    name of a previous-poll reader [oldReader]: if [oldReader] does not
    validate (truncated in place) it is not appended to the lost set; if it
    validates (moved) it is appended to the lost set unless a partner clears
    it, and the partners that can clear it are those whose fingerprint
    starts with its own. *)
Theorem readLostFiles_same_name_partner
    (m : Manager) (oldReader newReader : reader.Reader) :
  reader.DeleteAtEOF (readerFactory m) = false ->
  oldReader ∈ PreviousPollFiles (tracker m) ->
  newReader ∈ CurrentPollFiles (tracker m) ->
  reader.NameEquals newReader oldReader = true ->
  (Validate oldReader = false ->
     oldReader ∉ lostReaders (readLostFiles Validate m)) /\
  (Validate oldReader = true ->
     (oldReader ∈ lostReaders (readLostFiles Validate m) <->
      forall n, n ∈ CurrentPollFiles (tracker m) ->
                fingerprint.StartsWith (fpOf n) (fpOf oldReader) = false)).
Proof.
  intros Hd Hold Hnew Hname. split.
  - intros Hval Hin.
    apply (elem_of_lostReaders Validate m oldReader Hd) in Hin as [_ Hscan].
    assert ((scan oldReader (CurrentPollFiles (tracker m))).2 = true) as Hc.
    { apply scan_cleared_iff. right. by exists newReader. }
    congruence.
  - intros Hval. rewrite (elem_of_lostReaders Validate m oldReader Hd). split.
    + intros [_ Hscan] n Hn.
      destruct (fingerprint.StartsWith (fpOf n) (fpOf oldReader)) eqn:Hsw; [|done].
      assert ((scan oldReader (CurrentPollFiles (tracker m))).2 = true) as Hc.
      { apply scan_cleared_iff. left. by exists n. }
      congruence.
    + intros Hnone. split; [exact Hold|].
      destruct ((scan oldReader (CurrentPollFiles (tracker m))).2) eqn:Hscan; [|done].
      apply scan_cleared_iff in Hscan as [(n & Hn & Hsw)|(n & _ & _ & Hv)].
      * rewrite (Hnone n Hn) in Hsw. discriminate.
      * congruence.
Qed.

(** C6.  With delete-at-EOF enabled [readLostFiles] returns at once:
    nothing is logged (no partner is examined, nothing is validated), the
    lost set is empty and no reader is drained. *)
Theorem readLostFiles_DeleteAtEOF_skips (m : Manager) :
  reader.DeleteAtEOF (readerFactory m) = true ->
  readLostFiles Validate m =
  {| debugLog := []; lostReaders := []; readToEnd := [] |}.
Proof. intros Hd. unfold readLostFiles. by rewrite Hd. Qed.

(** [StartsWith], as modelled, is the byte-prefix test: the receiver starts
    with [old] exactly when the bytes of [old] are the first bytes of the
    receiver. *)
Lemma StartsWith_prefix_of (f old : fingerprint.Fingerprint) :
  fingerprint.StartsWith f old = true <->
  fingerprint.firstBytes old `prefix_of` fingerprint.firstBytes f.
Proof. unfold fingerprint.StartsWith. apply bool_decide_eq_true. Qed.


End ReconcilerClaims.

Lemma readLostFiles_prefix_partner_stops_scan_witness :
  let m := Scenario.manager false [Scenario.old_ab]
             [Scenario.new_other; Scenario.new_abc; Scenario.new_a] in
  (Scenario.old_ab ∉ fileconsumer.lostReaders (fileconsumer.readLostFiles Scenario.moved m)) /\
  exists (i : nat) (first : reader.Reader),
    list_find (fun n => fingerprint.StartsWith
                          (reader.Fingerprint (reader.Reader_Metadata n))
                          (reader.Fingerprint (reader.Reader_Metadata Scenario.old_ab)) = true)
              (fileconsumer.CurrentPollFiles (fileconsumer.tracker m)) = Some (i, first) /\
    (fileconsumer.examined
       (fileconsumer.scanCurrentPollFiles Scenario.moved Scenario.old_ab
          (fileconsumer.CurrentPollFiles (fileconsumer.tracker m))).1
       `prefix_of` take (S i) (fileconsumer.CurrentPollFiles (fileconsumer.tracker m))) /\
    (Scenario.moved Scenario.old_ab = true ->
     fileconsumer.examined
       (fileconsumer.scanCurrentPollFiles Scenario.moved Scenario.old_ab
          (fileconsumer.CurrentPollFiles (fileconsumer.tracker m))).1
     = take (S i) (fileconsumer.CurrentPollFiles (fileconsumer.tracker m))) /\
    forall n, fileconsumer.Debug_lost_check Scenario.old_ab n
                ∈ fileconsumer.debugLog (fileconsumer.readLostFiles Scenario.moved m) ->
              n ∈ take (S i) (fileconsumer.CurrentPollFiles (fileconsumer.tracker m)).
Proof.
  intros m.
  apply (readLostFiles_prefix_partner_stops_scan Scenario.moved m
           Scenario.old_ab Scenario.new_abc).
  - simpl. left.
  - simpl. right. left.
  - vm_compute. reflexivity.
Defined.

Lemma readLostFiles_same_name_partner_witness :
  let m := Scenario.manager false [Scenario.old_ab]
             [Scenario.new_other; Scenario.new_a] in
  (Scenario.truncated Scenario.old_ab = false ->
   Scenario.old_ab ∉ fileconsumer.lostReaders (fileconsumer.readLostFiles Scenario.truncated m)) /\
  (Scenario.moved Scenario.old_ab = true ->
   Scenario.old_ab ∈ fileconsumer.lostReaders (fileconsumer.readLostFiles Scenario.moved m)).
Proof.
  intros m. split.
  - apply (readLostFiles_same_name_partner Scenario.truncated m
             Scenario.old_ab Scenario.new_a).
    + reflexivity.
    + simpl. left.
    + simpl. right. left.
    + vm_compute. reflexivity.
  - intros Hv.
    apply (readLostFiles_same_name_partner Scenario.moved m
             Scenario.old_ab Scenario.new_a);
      [reflexivity|simpl; left|simpl; right; left|vm_compute; reflexivity|exact Hv|].
    intros n Hn. simpl in Hn.
    apply elem_of_cons in Hn as [->|Hn]; [vm_compute; reflexivity|].
    apply elem_of_cons in Hn as [->|Hn]; [vm_compute; reflexivity|].
    inversion Hn.
Defined.

Lemma readLostFiles_DeleteAtEOF_skips_witness :
  fileconsumer.readLostFiles Scenario.moved
    (Scenario.manager true [Scenario.old_ab] [Scenario.new_other]) =
  {| fileconsumer.debugLog := [];
     fileconsumer.lostReaders := [];
     fileconsumer.readToEnd := [] |}.
Proof.
  apply (readLostFiles_DeleteAtEOF_skips Scenario.moved
           (Scenario.manager true [Scenario.old_ab] [Scenario.new_other])).
  reflexivity.
Defined.


(** A rotation, for contrast: app.log held "ab", was moved away, and a new
    app.log holding "a" took its place.  The content did not grow: the new
    fingerprint does not start with the old one.  The old handle still
    validates, and the old reader is lost and drained. *)
Lemma readLostFiles_shrunk_file_is_lost :
  let m := Scenario.manager false [Scenario.old_ab] [Scenario.new_a] in
  Scenario.old_ab ∈ fileconsumer.PreviousPollFiles (fileconsumer.tracker m) /\
  Scenario.new_a ∈ fileconsumer.CurrentPollFiles (fileconsumer.tracker m) /\
  reader.NameEquals Scenario.new_a Scenario.old_ab = true /\
  fingerprint.firstBytes (reader.Fingerprint (reader.Reader_Metadata Scenario.new_a))
    `prefix_of`
    fingerprint.firstBytes (reader.Fingerprint (reader.Reader_Metadata Scenario.old_ab)) /\
  fingerprint.StartsWith (reader.Fingerprint (reader.Reader_Metadata Scenario.new_a))
    (reader.Fingerprint (reader.Reader_Metadata Scenario.old_ab)) = false /\
  fileconsumer.lostReaders (fileconsumer.readLostFiles Scenario.moved m) = [Scenario.old_ab] /\
  Scenario.old_ab ∈ fileconsumer.lostReaders (fileconsumer.readLostFiles Scenario.moved m).
Proof.
  intros m.
  assert (fileconsumer.lostReaders (fileconsumer.readLostFiles Scenario.moved m)
          = [Scenario.old_ab]) as Hlost by (vm_compute; reflexivity).
  split; [simpl; left|].
  split; [simpl; left|].
  split; [vm_compute; reflexivity|].
  split; [simpl; exists [x62]; reflexivity|].
  split; [vm_compute; reflexivity|].
  split; [exact Hlost|].
  rewrite Hlost. left.
Qed.

(** * Properties of the reader factory *)
Section FactoryFacts.
Import fingerprint reader.

Variable NewFromFile : File -> Z -> bool -> error + fingerprint.Fingerprint.
Variable Stat : File -> error + Z.
Variable header_NewReader : header.Config -> error + header.Reader.
Variable Resolve : File -> error + gmap string any.

(** The offset the reader starts at, from the stored offset, the size of
    the file and the from-beginning policy (lines 121-154). *)
Lemma determineStartingOffset_eq (f : Factory) (file : File) (s : State) :
  determineStartingOffset Stat f file s =
  match Stat file with
  | inl statErr => (s, Err (fmt_Errorf_w "stat" statErr))
  | inr fileSize =>
      let reset := Offset (meta s) >? fileSize in
      let stored := if reset then 0 else Offset (meta s) in
      ({| meta := set_Offset
                    (if stored =? 0
                     then if FromBeginning f then 0 else fileSize
                     else stored) (meta s);
          logged := logged s
            ++ (if reset
                then [Warn_offset_exceeds_file_size (Name file) (Offset (meta s)) fileSize]
                else [])
            ++ [if stored =? 0
                then if FromBeginning f then Debug_starting_at_0 (Name file)
                     else Debug_tailing_from_EOF (Name file) fileSize
                else Debug_resuming_from_saved_offset (Name file) stored fileSize] |},
       Ok tt)
  end.
Proof.
  unfold determineStartingOffset, bind, try, when, get, put, logger, ret, fail.
  destruct (Stat file) as [e|fileSize]; [reflexivity|]. simpl.
  destruct (Offset (meta s) >? fileSize); simpl.
  - destruct (FromBeginning f); simpl; by rewrite <- app_assoc.
  - destruct (Offset (meta s) =? 0); [destruct (FromBeginning f)|]; reflexivity.
Qed.

(** Attaching the header reader writes nothing. *)
Lemma attachHeaderReader_state (f : Factory) (s : State) :
  (attachHeaderReader header_NewReader f s).1 = s.
Proof.
  unfold attachHeaderReader, bind, try, get, ret, fail. simpl.
  destruct (HeaderConfig f) as [cfg|]; [|reflexivity].
  destruct (HeaderFinalized (meta s)); simpl; [reflexivity|].
  by destruct (header_NewReader cfg).
Qed.

(** Resolving the attributes writes no field but [FileAttributes]. *)
Lemma resolveFileAttributes_frame (file : File) (s : State) :
  let s' := (resolveFileAttributes Resolve file s).1 in
  Fingerprint (meta s') = Fingerprint (meta s) /\
  Offset (meta s') = Offset (meta s) /\
  logged s' = logged s.
Proof.
  unfold resolveFileAttributes, bind, try, get, put, ret, fail, panic. simpl.
  destruct (Resolve file) as [e|attributes]; simpl; [done|].
  by destruct (maps_Copy _ _).
Qed.

(** Once the fingerprint is settled nothing writes it again. *)
Lemma continueConstruction_Fingerprint (f : Factory) (file : File) (s : State) :
  Fingerprint (meta (continueConstruction Stat header_NewReader Resolve f file s).1)
  = Fingerprint (meta s).
Proof.
  unfold continueConstruction, bind at 1.
  rewrite determineStartingOffset_eq.
  destruct (Stat file) as [e|fileSize]; [reflexivity|]. simpl.
  set (s1 := {| meta := _; logged := _ |}).
  unfold bind at 1.
  pose proof (attachHeaderReader_state f s1) as Hh.
  destruct (attachHeaderReader header_NewReader f s1) as [s2 [hr|e|msg]];
    simpl in Hh; subst s2; try reflexivity.
  unfold bind at 1.
  pose proof (resolveFileAttributes_frame file s1) as (Hfp & _ & _).
  destruct (resolveFileAttributes Resolve file s1) as [s3 [[]|e|msg]];
    simpl in *; by rewrite Hfp.
Qed.

(** What the fingerprint check does, by cases (lines 101-111). *)
Lemma handleFingerprintLength_eq (f : Factory) (file : File) (s : State) :
  handleFingerprintLength NewFromFile f file s =
  if Len (Fingerprint (meta s)) >? FingerprintSize f then
    match NewFromFile file (FingerprintSize f)
            (negb (bool_decide (Compression f = EmptyString))) with
    | inl rereadErr => (s, Err (fmt_Errorf_w "reread fingerprint" rereadErr))
    | inr shorter =>
        if StartsWith (Fingerprint (meta s)) shorter
        then ({| meta := set_Fingerprint shorter (meta s); logged := logged s |}, Ok tt)
        else (s, Err (errors_New "file truncated"))
    end
  else (s, Ok tt).
Proof.
  unfold handleFingerprintLength, bind, try, get, put, ret, fail. simpl.
  destruct (_ >? _); [|reflexivity].
  destruct (NewFromFile _ _ _) as [e|shorter]; [reflexivity|].
  by destruct (StartsWith _ _).
Qed.

(** The call is the fingerprint check followed, if it passes, by the rest
    of the construction. *)
Lemma NewReaderFromMetadata_unfold (f : Factory) (file : File) (m : Metadata) :
  NewReaderFromMetadata NewFromFile Stat header_NewReader Resolve f file m =
  match handleFingerprintLength NewFromFile f file {| meta := m; logged := [] |} with
  | (s1, Ok _) =>
      let '(s, out) := continueConstruction Stat header_NewReader Resolve f file s1 in
      (meta s, logged s, out)
  | (s1, Err e) => (meta s1, logged s1, Err e)
  | (s1, Panic msg) => (meta s1, logged s1, Panic msg)
  end.
Proof.
  unfold NewReaderFromMetadata, NewReaderFromMetadata_M, bind at 1.
  by destruct (handleFingerprintLength _ _ _ _) as [s1 [[]|e|msg]].
Qed.

(** A run that passes the fingerprint check leaves offset and attributes
    as they were. *)
Lemma handleFingerprintLength_frame (f : Factory) (file : File) (s s1 : State) :
  handleFingerprintLength NewFromFile f file s = (s1, Ok tt) ->
  Offset (meta s1) = Offset (meta s) /\
  FileAttributes (meta s1) = FileAttributes (meta s) /\
  HeaderFinalized (meta s1) = HeaderFinalized (meta s) /\
  logged s1 = logged s.
Proof.
  rewrite handleFingerprintLength_eq.
  destruct (_ >? _); [|by intros [= <-]].
  destruct (NewFromFile _ _ _) as [e|shorter]; [discriminate|].
  destruct (StartsWith _ _); [|discriminate].
  by intros [= <-].
Qed.

(** Everything a successful call fixes: the file was statted, the
    attributes were resolved, the reader shares the caller's Metadata, and
    that Metadata has the chosen offset and the merged attributes. *)
Lemma NewReaderFromMetadata_Ok_inv (f : Factory) (file : File)
    (m m' : Metadata) (log : list LogEntry) (r : Reader) :
  NewReaderFromMetadata NewFromFile Stat header_NewReader Resolve f file m
    = (m', log, Ok r) ->
  Reader_Metadata r = m' /\
  exists (fileSize : Z) (attributes : gmap string any),
    Stat file = inr fileSize /\
    Resolve file = inr attributes /\
    Offset m' =
      (let stored := if Offset m >? fileSize then 0 else Offset m in
       if stored =? 0 then if FromBeginning f then 0 else fileSize else stored) /\
    maps_Copy (FileAttributes m) attributes = Ok (FileAttributes m').
Proof.
  unfold NewReaderFromMetadata, NewReaderFromMetadata_M, bind at 1.
  destruct (handleFingerprintLength _ _ _ _) as [s1 [[]|e|msg]] eqn:Hfp;
    [|intros [= _ _ ?]; discriminate..].
  apply handleFingerprintLength_frame in Hfp as (Hoff & Hattr & _ & _).
  simpl in Hoff, Hattr.
  unfold continueConstruction, bind at 1.
  rewrite determineStartingOffset_eq.
  destruct (Stat file) as [e|fileSize]; [intros [= _ _ ?]; discriminate|]. simpl.
  set (s2 := {| meta := _; logged := _ |}).
  unfold bind at 1.
  pose proof (attachHeaderReader_state f s2) as Hh.
  destruct (attachHeaderReader header_NewReader f s2) as [s3 [hr|e|msg]];
    simpl in Hh; subst s3; [|intros [= _ _ ?]; discriminate..].
  unfold bind at 1.
  unfold resolveFileAttributes, bind, try, get, put, ret, fail, panic. simpl.
  destruct (Resolve file) as [e|attributes]; simpl;
    [intros [= _ _ ?]; discriminate|].
  rewrite Hattr, Hoff.
  destruct (maps_Copy (FileAttributes m) attributes) as [a|e|msg] eqn:Hcopy; simpl;
    [|intros [= _ _ ?]; discriminate..].
  intros [= <- <- <-]. simpl. split; [reflexivity|].
  exists fileSize, attributes. by repeat split.
Qed.

End FactoryFacts.

(** * What the reader factory guarantees *)
Section FactoryClaims.
Import fingerprint reader.

Variable NewFromFile : File -> Z -> bool -> error + fingerprint.Fingerprint.
Variable Stat : File -> error + Z.
Variable header_NewReader : header.Config -> error + header.Reader.
Variable Resolve : File -> error + gmap string any.

Local Abbreviation NewReaderFromMetadata' :=
  (NewReaderFromMetadata NewFromFile Stat header_NewReader Resolve).

(** [maps.Copy] keeps the keys the source lacks and takes the source's
    value for the others. *)
Lemma maps_Copy_lookup (m m' : Metadata) (attributes : gmap string any) (k : string) :
  maps_Copy (FileAttributes m) attributes = Ok (FileAttributes m') ->
  attribute m' k = match attributes !! k with
                   | Some v => Some v
                   | None => attribute m k
                   end.
Proof.
  unfold maps_Copy, attribute.
  destruct (FileAttributes m) as [d|].
  - intros [= <-].
    destruct (attributes !! k) as [v|] eqn:Hk.
    + by apply lookup_union_Some_l.
    + by rewrite lookup_union_r.
  - case_bool_decide as Hempty; [|discriminate].
    intros [= <-]. subst attributes. by rewrite lookup_empty.
Qed.

(** C2, amended.  When the call reaches the stat and the stored offset
    exceeds the size it reports, the call does not fail for that: it logs
    the warning, resets the stored offset to 0 and goes on.  It can then
    fail only where the header reader is built or the attributes are
    resolved (or panic on a nil attribute map), and the reader it returns
    has offset 0 if FromBeginning is set and the size of the file if not. *)
Theorem NewReaderFromMetadata_copytruncate_reset
    (f : Factory) (file : File) (m : Metadata) (fileSize : Z) (s1 : State) :
  handleFingerprintLength NewFromFile f file {| meta := m; logged := [] |} = (s1, Ok tt) ->
  Stat file = inr fileSize ->
  Offset m > fileSize ->
  exists (m' : Metadata) (log : list LogEntry) (out : Outcome Reader),
    NewReaderFromMetadata' f file m = (m', log, out) /\
    Warn_offset_exceeds_file_size (Name file) (Offset m) fileSize ∈ log /\
    match out with
    | Ok r =>
        Reader_Metadata r = m' /\
        Offset (Reader_Metadata r) = (if FromBeginning f then 0 else fileSize)
    | Err e =>
        (exists cfg, HeaderConfig f = Some cfg /\ HeaderFinalized m = false /\
                     header_NewReader cfg = inl e) \/
        Resolve file = inl e
    | Panic _ =>
        FileAttributes m = None /\
        exists attributes, Resolve file = inr attributes /\ (attributes <> ∅)
    end.
Proof.
  intros Hfp Hstat Hgt.
  unfold NewReaderFromMetadata, NewReaderFromMetadata_M, bind at 1. rewrite Hfp.
  apply handleFingerprintLength_frame in Hfp as (Hoff & Hattr & Hfin & Hlog).
  simpl in Hoff, Hattr, Hfin, Hlog.
  unfold continueConstruction, bind at 1.
  rewrite determineStartingOffset_eq, Hstat, Hoff, Hlog.
  assert ((Offset m >? fileSize) = true) as -> by (apply Z.gtb_lt; lia).
  simpl.
  set (s2 := {| meta := _; logged := _ |}).
  assert (Warn_offset_exceeds_file_size (Name file) (Offset m) fileSize ∈ logged s2)
    as Hwarn by (simpl; left).
  unfold bind at 1, attachHeaderReader, bind, try, get, ret, fail. simpl.
  rewrite Hfin.
  assert (forall hr : option header.Reader,
    exists m' log out,
      (let '(s, out) :=
         bind (resolveFileAttributes Resolve file)
           (fun _ => bind get (fun m0 =>
              ret {| Reader_Metadata := m0; reader.file := file;
                     fileName := Name file;
                     fingerprintSize := FingerprintSize f;
                     initialBufferSize := InitialBufferSize f;
                     maxLogSize := MaxLogSize f; headerReader := hr;
                     deleteAtEOF := DeleteAtEOF f; compression := Compression f;
                     acquireFSLock := AcquireFSLock f;
                     maxBatchSize := DefaultMaxBatchSize |})) s2 in
       (meta s, logged s, out)) = (m', log, out) /\
      Warn_offset_exceeds_file_size (Name file) (Offset m) fileSize ∈ log /\
      match out with
      | Ok r => Reader_Metadata r = m' /\
                Offset (Reader_Metadata r) = (if FromBeginning f then 0 else fileSize)
      | Err e => Resolve file = inl e
      | Panic _ => FileAttributes m = None /\
                   exists attributes, Resolve file = inr attributes /\ (attributes <> ∅)
      end) as Hrest.
  { intros hr.
    unfold resolveFileAttributes, bind, try, get, put, ret, fail, panic. simpl.
    destruct (Resolve file) as [e|attributes]; simpl.
    { by eexists _, _, _. }
    rewrite Hattr. unfold maps_Copy.
    destruct (FileAttributes m) as [d|]; simpl.
    { eexists _, _, _. split; [reflexivity|]. split; [exact Hwarn|]. by simpl. }
    case_bool_decide as Hempty; simpl.
    { eexists _, _, _. split; [reflexivity|]. split; [exact Hwarn|]. by simpl. }
    eexists _, _, _. split; [reflexivity|]. split; [exact Hwarn|].
    split; [reflexivity|]. by exists attributes. }
  destruct (HeaderConfig f) as [cfg|].
  - destruct (HeaderFinalized m); simpl.
    + destruct (Hrest None) as (m' & log & out & Heq & Hw & Hout).
      exists m', log, out. split; [exact Heq|]. split; [exact Hw|].
      destruct out; auto.
    + destruct (header_NewReader cfg) as [e|hr] eqn:Hhr; simpl.
      * eexists _, _, _. split; [reflexivity|]. split; [exact Hwarn|].
        left. by exists cfg.
      * destruct (Hrest (Some hr)) as (m' & log & out & Heq & Hw & Hout).
        exists m', log, out. split; [exact Heq|]. split; [exact Hw|].
        destruct out; auto.
  - destruct (Hrest None) as (m' & log & out & Heq & Hw & Hout).
    exists m', log, out. split; [exact Heq|]. split; [exact Hw|].
    destruct out; auto.
Qed.

(** C3.  When the stored fingerprint is longer than the configured size, a
    shorter one is read again from the file at that size.  If the read
    fails the call fails with that error; if the stored fingerprint does
    not start with the shorter one the call fails with "file truncated" and
    returns no reader; otherwise the Metadata's fingerprint becomes the
    shorter one and the rest of the construction runs on it. *)
Theorem NewReaderFromMetadata_long_fingerprint
    (f : Factory) (file : File) (m : Metadata) :
  Len (Fingerprint m) > FingerprintSize f ->
  match NewFromFile file (FingerprintSize f)
          (negb (bool_decide (Compression f = EmptyString))) with
  | inl rereadErr =>
      NewReaderFromMetadata' f file m
      = (m, [], Err (fmt_Errorf_w "reread fingerprint" rereadErr))
  | inr shorter =>
      if StartsWith (Fingerprint m) shorter then
        let '(s, out) :=
          continueConstruction Stat header_NewReader Resolve f file
            {| meta := set_Fingerprint shorter m; logged := [] |} in
        NewReaderFromMetadata' f file m = (meta s, logged s, out) /\
        Fingerprint (meta s) = shorter
      else
        NewReaderFromMetadata' f file m = (m, [], Err (errors_New "file truncated"))
  end.
Proof.
  intros Hlen.
  rewrite NewReaderFromMetadata_unfold, handleFingerprintLength_eq. simpl.
  assert ((Len (Fingerprint m) >? FingerprintSize f) = true) as ->
    by (apply Z.gtb_lt; lia).
  destruct (NewFromFile _ _ _) as [e|shorter]; [reflexivity|].
  destruct (StartsWith (Fingerprint m) shorter); [|reflexivity].
  pose proof (continueConstruction_Fingerprint Stat header_NewReader Resolve f file
                {| meta := set_Fingerprint shorter m; logged := [] |}) as Hkeep.
  destruct (continueConstruction _ _ _ _ _ _) as [s out]. by split.
Qed.

(** C4.  In every successful call the reader's offset is chosen in this
    order: a stored offset that is non-zero after the copy-truncate reset
    is kept; a zero one gives 0 under FromBeginning, and the size of the
    file otherwise. *)
Theorem NewReaderFromMetadata_starting_offset
    (f : Factory) (file : File) (m m' : Metadata) (log : list LogEntry) (r : Reader) :
  NewReaderFromMetadata' f file m = (m', log, Ok r) ->
  exists fileSize : Z,
    Stat file = inr fileSize /\
    let stored := if Offset m >? fileSize then 0 else Offset m in
    (stored <> 0 -> Offset (Reader_Metadata r) = stored) /\
    (stored = 0 -> FromBeginning f = true -> Offset (Reader_Metadata r) = 0) /\
    (stored = 0 -> FromBeginning f = false -> Offset (Reader_Metadata r) = fileSize).
Proof.
  intros Hcall.
  apply NewReaderFromMetadata_Ok_inv in Hcall
    as (-> & fileSize & attributes & Hstat & _ & Hoff & _).
  exists fileSize. split; [exact Hstat|]. simpl in *.
  destruct ((if Offset m >? fileSize then 0 else Offset m) =? 0) eqn:Hz.
  - apply Z.eqb_eq in Hz. rewrite Hoff.
    repeat split; intros; [congruence|..].
    + by replace (FromBeginning f) with true.
    + by replace (FromBeginning f) with false.
  - apply Z.eqb_neq in Hz. repeat split; intros; congruence.
Qed.

(** C8.  In every successful call the freshly resolved attributes are
    merged into the attribute map the Metadata already had: a key the
    resolution does not give keeps its value, a key it gives takes the
    resolved value. *)
Theorem NewReaderFromMetadata_merges_attributes
    (f : Factory) (file : File) (m m' : Metadata) (log : list LogEntry) (r : Reader) :
  NewReaderFromMetadata' f file m = (m', log, Ok r) ->
  Reader_Metadata r = m' /\
  exists attributes : gmap string any,
    Resolve file = inr attributes /\
    forall k : string,
      (attributes !! k = None -> attribute m' k = attribute m k) /\
      (forall v, attributes !! k = Some v -> attribute m' k = Some v).
Proof.
  intros Hcall.
  apply NewReaderFromMetadata_Ok_inv in Hcall
    as (Hr & fileSize & attributes & _ & Hres & _ & Hcopy).
  split; [exact Hr|]. exists attributes. split; [exact Hres|].
  intros k. rewrite (maps_Copy_lookup m m' attributes k Hcopy).
  split; [by intros ->|by intros v ->].
Qed.

End FactoryClaims.

Lemma NewReaderFromMetadata_copytruncate_reset_witness :
  let f := Scenario.factory true false 1000 None in
  let m := Scenario.metadata [x61; x62] 1000 in
  exists (m' : reader.Metadata) (log : list reader.LogEntry) (out : Outcome reader.Reader),
    reader.NewReaderFromMetadata Scenario.reread_ab Scenario.stat_200
      Scenario.header_ok Scenario.resolve_owner f Scenario.app_log m = (m', log, out) /\
    reader.Warn_offset_exceeds_file_size "app.log" 1000 200 ∈ log /\
    match out with
    | Ok r =>
        reader.Reader_Metadata r = m' /\
        reader.Offset (reader.Reader_Metadata r) = 0
    | Err e =>
        (exists cfg, reader.HeaderConfig f = Some cfg /\
                     reader.HeaderFinalized m = false /\
                     Scenario.header_ok cfg = inl e) \/
        Scenario.resolve_owner Scenario.app_log = inl e
    | Panic _ =>
        reader.FileAttributes m = None /\
        exists attributes,
          Scenario.resolve_owner Scenario.app_log = inr attributes /\ (attributes <> ∅)
    end.
Proof.
  intros f m.
  apply (NewReaderFromMetadata_copytruncate_reset Scenario.reread_ab Scenario.stat_200
           Scenario.header_ok Scenario.resolve_owner f Scenario.app_log m 200
           {| reader.meta := m; reader.logged := [] |}).
  - reflexivity.
  - reflexivity.
  - simpl. lia.
Defined.

(** C2 as first written fails in tail mode: with stored offset 1000, a file
    of 200 bytes and FromBeginning unset, the call succeeds and the reader
    starts at offset 200, not 0. *)
Lemma NewReaderFromMetadata_copytruncate_tailing :
  let m := Scenario.metadata [x61; x62] 1000 in
  Scenario.stat_200 Scenario.app_log = inr 200 /\
  reader.Offset m > 200 /\
  exists (m' : reader.Metadata) (log : list reader.LogEntry) (r : reader.Reader),
    reader.NewReaderFromMetadata Scenario.reread_ab Scenario.stat_200
      Scenario.header_ok Scenario.resolve_owner
      (Scenario.factory false false 1000 None) Scenario.app_log m = (m', log, Ok r) /\
    reader.Offset (reader.Reader_Metadata r) = 200 /\
    reader.Offset (reader.Reader_Metadata r) <> 0.
Proof.
  intros m. split; [reflexivity|]. split; [simpl; lia|].
  eexists _, _, _. split; [vm_compute; reflexivity|].
  split; [reflexivity|discriminate].
Qed.

Lemma NewReaderFromMetadata_long_fingerprint_witness :
  let f := Scenario.factory true false 2 None in
  let m := Scenario.metadata [x61; x62; x63] 0 in
  (reader.NewReaderFromMetadata Scenario.reread_zz Scenario.stat_200
     Scenario.header_ok Scenario.resolve_owner f Scenario.app_log m
   = (m, [], Err (errors_New "file truncated"))) /\
  (let '(s, out) :=
     reader.continueConstruction Scenario.stat_200 Scenario.header_ok
       Scenario.resolve_owner f Scenario.app_log
       {| reader.meta := reader.set_Fingerprint (Scenario.fp [x61; x62]) m;
          reader.logged := [] |} in
   reader.NewReaderFromMetadata Scenario.reread_ab Scenario.stat_200
     Scenario.header_ok Scenario.resolve_owner f Scenario.app_log m
   = (reader.meta s, reader.logged s, out) /\
   reader.Fingerprint (reader.meta s) = Scenario.fp [x61; x62]).
Proof.
  intros f m. split.
  - apply (NewReaderFromMetadata_long_fingerprint Scenario.reread_zz Scenario.stat_200
             Scenario.header_ok Scenario.resolve_owner f Scenario.app_log m).
    vm_compute. reflexivity.
  - apply (NewReaderFromMetadata_long_fingerprint Scenario.reread_ab Scenario.stat_200
             Scenario.header_ok Scenario.resolve_owner f Scenario.app_log m).
    vm_compute. reflexivity.
Defined.

(** A resumed read: stored offset 150 in a file of 200 bytes. *)
Lemma NewReaderFromMetadata_resumes_at_150 :
  exists (m' : reader.Metadata) (log : list reader.LogEntry) (r : reader.Reader),
    reader.NewReaderFromMetadata Scenario.reread_ab Scenario.stat_200
      Scenario.header_ok Scenario.resolve_owner
      (Scenario.factory false false 1000 None) Scenario.app_log
      (Scenario.metadata [x61; x62] 150) = (m', log, Ok r).
Proof. eexists _, _, _. vm_compute. reflexivity. Defined.

Lemma NewReaderFromMetadata_starting_offset_witness :
  exists (m' : reader.Metadata) (log : list reader.LogEntry) (r : reader.Reader),
    reader.NewReaderFromMetadata Scenario.reread_ab Scenario.stat_200
      Scenario.header_ok Scenario.resolve_owner
      (Scenario.factory false false 1000 None) Scenario.app_log
      (Scenario.metadata [x61; x62] 150) = (m', log, Ok r) /\
    exists fileSize : Z,
      Scenario.stat_200 Scenario.app_log = inr fileSize /\
      let stored := if 150 >? fileSize then 0 else 150 in
      (stored <> 0 -> reader.Offset (reader.Reader_Metadata r) = stored) /\
      (stored = 0 -> false = true -> reader.Offset (reader.Reader_Metadata r) = 0) /\
      (stored = 0 -> false = false ->
       reader.Offset (reader.Reader_Metadata r) = fileSize).
Proof.
  destruct NewReaderFromMetadata_resumes_at_150 as (m' & log & r & Hcall).
  exists m', log, r. split; [exact Hcall|].
  exact (NewReaderFromMetadata_starting_offset Scenario.reread_ab Scenario.stat_200
           Scenario.header_ok Scenario.resolve_owner
           (Scenario.factory false false 1000 None) Scenario.app_log
           (Scenario.metadata [x61; x62] 150) m' log r Hcall).
Defined.

Lemma NewReaderFromMetadata_merges_attributes_witness :
  exists (m' : reader.Metadata) (log : list reader.LogEntry) (r : reader.Reader),
    reader.NewReaderFromMetadata Scenario.reread_ab Scenario.stat_200
      Scenario.header_ok Scenario.resolve_owner
      (Scenario.factory false false 1000 None) Scenario.app_log
      (Scenario.metadata [x61; x62] 150) = (m', log, Ok r) /\
    reader.Reader_Metadata r = m' /\
    exists attributes : gmap string any,
      Scenario.resolve_owner Scenario.app_log = inr attributes /\
      forall k : string,
        (attributes !! k = None ->
         reader.attribute m' k = reader.attribute (Scenario.metadata [x61; x62] 150) k) /\
        (forall v, attributes !! k = Some v -> reader.attribute m' k = Some v).
Proof.
  destruct NewReaderFromMetadata_resumes_at_150 as (m' & log & r & Hcall).
  exists m', log, r. split; [exact Hcall|].
  exact (NewReaderFromMetadata_merges_attributes Scenario.reread_ab Scenario.stat_200
           Scenario.header_ok Scenario.resolve_owner
           (Scenario.factory false false 1000 None) Scenario.app_log
           (Scenario.metadata [x61; x62] 150) m' log r Hcall).
Defined.

(** The merge on that call, key by key: the resolved owner is added, the
    file name resolved earlier is kept. *)
Example NewReaderFromMetadata_merge_example :
  match reader.NewReaderFromMetadata Scenario.reread_ab Scenario.stat_200
          Scenario.header_ok Scenario.resolve_owner
          (Scenario.factory false false 1000 None) Scenario.app_log
          (Scenario.metadata [x61; x62] 150) with
  | (m', _, Ok r) =>
      reader.attribute m' "log.file.owner.name" = Some (any_string "root") /\
      reader.attribute m' "log.file.name" = Some (any_string "app.log") /\
      reader.Offset (reader.Reader_Metadata r) = 150
  | _ => False
  end.
Proof. vm_compute. repeat split. Qed.

(** C9.  A failed call can leave the caller's Metadata changed.  With a
    stored fingerprint "abc" and configured size 2, the fingerprint is
    replaced by "ab" and the stat then fails; with stored offset 1000 and a
    file of 200 bytes, the offset is reset to 0 and then the header reader
    cannot be built, or the attributes cannot be resolved.  Each call
    returns an error and no reader, and the Metadata differs from the one
    passed in. *)
Theorem NewReaderFromMetadata_not_atomic_on_failure :
  (exists (m' : reader.Metadata) (log : list reader.LogEntry) (statErr : error),
     let m := Scenario.metadata [x61; x62; x63] 0 in
     reader.NewReaderFromMetadata Scenario.reread_ab Scenario.stat_fails
       Scenario.header_ok Scenario.resolve_owner
       (Scenario.factory true false 2 None) Scenario.app_log m
     = (m', log, Err (fmt_Errorf_w "stat" statErr)) /\
     reader.Fingerprint m' = Scenario.fp [x61; x62] /\
     reader.Fingerprint m = Scenario.fp [x61; x62; x63] /\
     m' <> m) /\
  (exists (m' : reader.Metadata) (log : list reader.LogEntry) (err : error),
     let m := Scenario.metadata [x61; x62] 1000 in
     reader.NewReaderFromMetadata Scenario.reread_ab Scenario.stat_200
       Scenario.header_fails Scenario.resolve_owner
       (Scenario.factory true false 1000 (Some Scenario.header_cfg)) Scenario.app_log m
     = (m', log, Err err) /\
     Scenario.header_fails Scenario.header_cfg = inl err /\
     reader.Offset m' = 0 /\ reader.Offset m = 1000 /\ m' <> m) /\
  (exists (m' : reader.Metadata) (log : list reader.LogEntry) (err : error),
     let m := Scenario.metadata [x61; x62] 1000 in
     reader.NewReaderFromMetadata Scenario.reread_ab Scenario.stat_200
       Scenario.header_ok Scenario.resolve_fails
       (Scenario.factory true false 1000 None) Scenario.app_log m
     = (m', log, Err err) /\
     Scenario.resolve_fails Scenario.app_log = inl err /\
     reader.Offset m' = 0 /\ reader.Offset m = 1000 /\ m' <> m).
Proof.
  split; [|split].
  - eexists _, _, _. simpl.
    split; [vm_compute; reflexivity|].
    split; [reflexivity|]. split; [reflexivity|].
    intros H. apply (f_equal reader.Fingerprint) in H. discriminate H.
  - eexists _, _, _. simpl.
    split; [vm_compute; reflexivity|].
    split; [reflexivity|]. split; [reflexivity|]. split; [reflexivity|].
    intros H. apply (f_equal reader.Offset) in H. discriminate H.
  - eexists _, _, _. simpl.
    split; [vm_compute; reflexivity|].
    split; [reflexivity|]. split; [reflexivity|]. split; [reflexivity|].
    intros H. apply (f_equal reader.Offset) in H. discriminate H.
Qed.

(** * More on the reader factory *)

(** ** Go's [filepath.Ext] *)
Section ExtFacts.
Import reader.

Lemma string_of_list_ascii_snoc (l : list ascii) (c : ascii) (after : string) :
  String.append (String.string_of_list_ascii (l ++ [c])) after
  = String.append (String.string_of_list_ascii l) (String c after).
Proof.
  induction l as [|x l IH]; [reflexivity|].
  change (String x (String.append (String.string_of_list_ascii (l ++ [c])) after)
          = String x (String.append (String.string_of_list_ascii l) (String c after))).
  by rewrite IH.
Qed.

Lemma list_ascii_of_string_append (s1 s2 : string) :
  String.list_ascii_of_string (String.append s1 s2)
  = String.list_ascii_of_string s1 ++ String.list_ascii_of_string s2.
Proof.
  induction s1 as [|c s1 IH]; [reflexivity|].
  change (c :: String.list_ascii_of_string (String.append s1 s2)
          = c :: (String.list_ascii_of_string s1 ++ String.list_ascii_of_string s2)).
  by rewrite IH.
Qed.

Lemma append_empty_r (s : string) : String.append s EmptyString = s.
Proof.
  induction s as [|c s IH]; [reflexivity|].
  change (String c (String.append s EmptyString) = String c s). by rewrite IH.
Qed.

(** What [Ext_scan] returns is the end of the path it walks. *)
Lemma Ext_scan_suffix (before : list ascii) (after : string) :
  exists base : string,
    String.append (String.string_of_list_ascii (rev before)) after
    = String.append base (Ext_scan before after).
Proof.
  revert after. induction before as [|c more IH]; intros after; simpl.
  - exists after. by rewrite append_empty_r.
  - rewrite string_of_list_ascii_snoc.
    case_bool_decide.
    { eexists. by rewrite append_empty_r. }
    case_bool_decide.
    { by eexists. }
    apply IH.
Qed.

Lemma Ext_scan_skip (l1 l2 : list ascii) (after : string) :
  Forall (fun c => c <> "/"%char /\ c <> "."%char) l1 ->
  Ext_scan (l1 ++ l2) after
  = Ext_scan l2 (String.append (String.string_of_list_ascii (rev l1)) after).
Proof.
  intros Hl. revert after.
  induction Hl as [|c l1 [Hs Hd] _ IH]; intros after; simpl; [reflexivity|].
  rewrite bool_decide_eq_false_2, bool_decide_eq_false_2 by assumption.
  by rewrite IH, string_of_list_ascii_snoc.
Qed.

Lemma filepath_Ext_suffix (path : string) :
  exists base : string, path = String.append base (filepath_Ext path).
Proof.
  destruct (Ext_scan_suffix (rev (String.list_ascii_of_string path)) EmptyString)
    as [base Hbase].
  exists base. unfold filepath_Ext. rewrite <- Hbase, rev_involutive, append_empty_r.
  by rewrite String.string_of_list_ascii_of_string.
Qed.

Lemma filepath_Ext_dot (base ext : string) :
  Forall (fun c => c <> "/"%char /\ c <> "."%char) (String.list_ascii_of_string ext) ->
  filepath_Ext (String.append base (String "."%char ext)) = String "."%char ext.
Proof.
  intros Hext. unfold filepath_Ext.
  rewrite list_ascii_of_string_append. simpl.
  rewrite rev_app_distr. simpl. rewrite <- app_assoc. simpl.
  rewrite Ext_scan_skip by (by apply Forall_rev).
  simpl. rewrite rev_involutive, append_empty_r.
  by rewrite String.string_of_list_ascii_of_string.
Qed.
End ExtFacts.

(** ** [NewReaderFromMetadata], [NewFingerprint] and [NewReader] *)
Section ExtraFactory.
Import fingerprint reader.

Variable NewFromFile : File -> Z -> bool -> error + fingerprint.Fingerprint.
Variable Stat : File -> error + Z.
Variable header_NewReader : header.Config -> error + header.Reader.
Variable Resolve : File -> error + gmap string any.

Local Abbreviation call := (NewReaderFromMetadata NewFromFile Stat header_NewReader Resolve).

Lemma set_Fingerprint_same (m : Metadata) : set_Fingerprint (Fingerprint m) m = m.
Proof. by destruct m. Qed.

Lemma StartsWith_refl (fp : fingerprint.Fingerprint) : StartsWith fp fp = true.
Proof. unfold StartsWith. by apply bool_decide_eq_true. Qed.

Lemma continueConstruction_eq (f : Factory) (file : File) (s : State) :
  continueConstruction Stat header_NewReader Resolve f file s =
  match Stat file with
  | inl statErr => (s, Err (fmt_Errorf_w "stat" statErr))
  | inr fileSize =>
      let reset := Offset (meta s) >? fileSize in
      let stored := if reset then 0 else Offset (meta s) in
      let start := if stored =? 0
                   then if FromBeginning f then 0 else fileSize
                   else stored in
      let s1 :=
        {| meta := set_Offset start (meta s);
           logged := logged s
             ++ (if reset
                 then [Warn_offset_exceeds_file_size (Name file) (Offset (meta s)) fileSize]
                 else [])
             ++ [if stored =? 0
                 then if FromBeginning f then Debug_starting_at_0 (Name file)
                      else Debug_tailing_from_EOF (Name file) fileSize
                 else Debug_resuming_from_saved_offset (Name file) stored fileSize] |} in
      match (match HeaderConfig f with
             | Some cfg =>
                 if HeaderFinalized (meta s) then inr None
                 else match header_NewReader cfg with
                      | inl err => inl err
                      | inr hr => inr (Some hr)
                      end
             | None => inr None
             end) with
      | inl err => (s1, Err err)
      | inr hr =>
          match Resolve file with
          | inl err => (s1, Err err)
          | inr attributes =>
              match maps_Copy (FileAttributes (meta s)) attributes with
              | Ok a =>
                  let m' := set_FileAttributes a (meta s1) in
                  ({| meta := m'; logged := logged s1 |},
                   Ok {| Reader_Metadata := m';
                         reader.file := file;
                         fileName := Name file;
                         fingerprintSize := FingerprintSize f;
                         initialBufferSize := InitialBufferSize f;
                         maxLogSize := MaxLogSize f;
                         headerReader := hr;
                         deleteAtEOF := DeleteAtEOF f;
                         compression := Compression f;
                         acquireFSLock := AcquireFSLock f;
                         maxBatchSize := DefaultMaxBatchSize |})
              | Err e => (s1, Err e)
              | Panic msg => (s1, Panic msg)
              end
          end
      end
  end.
Proof.
  unfold continueConstruction, bind at 1.
  rewrite determineStartingOffset_eq.
  destruct (Stat file) as [e|fileSize]; [reflexivity|]. cbv zeta.
  set (s1 := {| meta := _; logged := _ |}).
  unfold bind at 1, attachHeaderReader, bind, try, get, ret, fail. simpl.
  unfold resolveFileAttributes, bind, try, get, put, ret, fail, panic. simpl.
  destruct (HeaderConfig f) as [cfg|]; simpl.
  - destruct (HeaderFinalized (meta s)); simpl.
    + destruct (Resolve file); simpl; [done|]. by destruct (maps_Copy _ _).
    + destruct (header_NewReader cfg); simpl; [done|].
      destruct (Resolve file); simpl; [done|]. by destruct (maps_Copy _ _).
  - destruct (Resolve file); simpl; [done|]. by destruct (maps_Copy _ _).
Qed.

(** The whole call in closed form. *)
Lemma NewReaderFromMetadata_eq (f : Factory) (file : File) (m : Metadata) :
  call f file m =
  let '(s, out) :=
    if Len (Fingerprint m) >? FingerprintSize f then
      match NewFingerprint NewFromFile f file with
      | inl rereadErr =>
          ({| meta := m; logged := [] |},
           Err (fmt_Errorf_w "reread fingerprint" rereadErr))
      | inr shorter =>
          if StartsWith (Fingerprint m) shorter
          then continueConstruction Stat header_NewReader Resolve f file
                 {| meta := set_Fingerprint shorter m; logged := [] |}
          else ({| meta := m; logged := [] |}, Err (errors_New "file truncated"))
      end
    else continueConstruction Stat header_NewReader Resolve f file
           {| meta := m; logged := [] |} in
  (meta s, logged s, out).
Proof.
  rewrite NewReaderFromMetadata_unfold, handleFingerprintLength_eq.
  unfold NewFingerprint. simpl.
  destruct (_ >? _); [|reflexivity].
  destruct (NewFromFile _ _ _) as [e|shorter]; [reflexivity|].
  by destruct (StartsWith _ _).
Qed.

Lemma start_idempotent (fromBeginning : bool) (offset fileSize : Z) :
  let start o :=
    let stored := if o >? fileSize then 0 else o in
    if stored =? 0 then if fromBeginning then 0 else fileSize else stored in
  start (start offset) = start offset.
Proof.
  cbv zeta.
  repeat match goal with
         | |- context [?a >? ?b] => destruct (Z.gtb_spec a b)
         | |- context [?a =? ?b] => destruct (Z.eqb_spec a b)
         | |- context [if fromBeginning then _ else _] => destruct fromBeginning
         end; lia.
Qed.

#[local] Set Warnings "-clear-no-such-hyp".

Ltac continue_cases f file s :=
  rewrite continueConstruction_eq;
  destruct (Stat file) as [?|?] eqn:?; cbv zeta;
  [|destruct (HeaderConfig f) as [?|] eqn:?;
    [destruct (HeaderFinalized (meta s)) eqn:?;
     [|match goal with
       | |- context [header_NewReader ?c] => destruct (header_NewReader c) as [?|?] eqn:?
       end]|];
    try (destruct (Resolve file) as [?|?] eqn:?;
         [|unfold maps_Copy; destruct (FileAttributes (meta s)) as [?|] eqn:?;
           [|case_bool_decide]])].

(** X1.  [NewReaderFromMetadata] returns a reader exactly when the
    fingerprint check passes (the stored fingerprint is not longer than the
    configured size, or it starts with the one read again), the stat
    succeeds, the header reader, if one is called for, can be built, and
    the attributes resolve, into a map that is not nil unless nothing is
    resolved.  No stored offset and no FromBeginning setting makes it
    fail. *)
Theorem NewReaderFromMetadata_succeeds_iff (f : Factory) (file : File) (m : Metadata) :
  (exists m' log r, call f file m = (m', log, Ok r)) <->
  (Len (Fingerprint m) <= FingerprintSize f \/
   exists shorter, NewFingerprint NewFromFile f file = inr shorter /\
                   StartsWith (Fingerprint m) shorter = true) /\
  (exists fileSize, Stat file = inr fileSize) /\
  (forall cfg, HeaderConfig f = Some cfg -> HeaderFinalized m = false ->
               exists hr, header_NewReader cfg = inr hr) /\
  (exists attributes, Resolve file = inr attributes /\
                      (FileAttributes m = None -> attributes = ∅)).
Proof.
  rewrite NewReaderFromMetadata_eq.
  assert (forall s : State,
    (exists m' log r,
       (let '(s', out) := continueConstruction Stat header_NewReader Resolve f file s in
        (meta s', logged s', out)) = (m', log, Ok r)) <->
    (exists fileSize, Stat file = inr fileSize) /\
    (forall cfg, HeaderConfig f = Some cfg -> HeaderFinalized (meta s) = false ->
                 exists hr, header_NewReader cfg = inr hr) /\
    (exists attributes, Resolve file = inr attributes /\
                        (FileAttributes (meta s) = None -> attributes = ∅))) as Hrest.
  { intros s. continue_cases f file s; simpl; try naive_solver.
    split; [intros (? & ? & ? & [=])|].
    intros (_ & Hh & _). destruct (Hh _ eq_refl eq_refl) as [? ?]. congruence. }
  destruct (Z.gtb_spec (Len (Fingerprint m)) (FingerprintSize f)) as [Hgt|Hle].
  - destruct (NewFingerprint NewFromFile f file) as [e|shorter] eqn:Hnew.
    { split; [intros (? & ? & ? & [=])|].
      intros ([?|(? & [=] & _)] & _); lia. }
    destruct (StartsWith (Fingerprint m) shorter) eqn:Hsw.
    + rewrite Hrest. simpl. split.
      * intros H. split; [|exact H]. right. by exists shorter.
      * by intros [_ H].
    + split; [intros (? & ? & ? & [=])|].
      intros ([?|(? & [= <-] & ?)] & _); [lia|congruence].
  - rewrite Hrest. simpl. split.
    + intros H. split; [by left|exact H].
    + by intros [_ H].
Qed.

Lemma maps_Copy_idempotent (dst a : option (gmap string any)) (src : gmap string any) :
  maps_Copy dst src = Ok a -> maps_Copy a src = Ok a.
Proof.
  unfold maps_Copy. destruct dst as [d|].
  - intros [= <-]. by rewrite (assoc_L (∪)), (idemp_L (∪)).
  - case_bool_decide; [|discriminate]. by intros [= <-].
Qed.

Lemma continueConstruction_idempotent (f : Factory) (file : File) (s : State)
    (m' : Metadata) (log : list LogEntry) (r : Reader) :
  (let '(s', out) := continueConstruction Stat header_NewReader Resolve f file s in
   (meta s', logged s', out)) = (m', log, Ok r) ->
  Fingerprint m' = Fingerprint (meta s) /\
  exists log',
    (let '(s', out) := continueConstruction Stat header_NewReader Resolve f file
                         {| meta := m'; logged := [] |} in
     (meta s', logged s', out)) = (m', log', Ok r).
Proof.
  rewrite !continueConstruction_eq.
  destruct (Stat file) as [e|fileSize]; [discriminate|]. cbv zeta.
  destruct (match HeaderConfig f with Some _ => _ | None => _ end) as [e|hr] eqn:Hh;
    [discriminate|].
  destruct (Resolve file) as [e|attributes]; [discriminate|].
  destruct (maps_Copy (FileAttributes (meta s)) attributes) as [a|e|msg] eqn:Hcopy;
    [|discriminate..].
  intros [= <- <- <-]. split; [reflexivity|]. simpl.
  rewrite Hh, (maps_Copy_idempotent _ _ _ Hcopy).
  pose proof (start_idempotent (FromBeginning f) (Offset (meta s)) fileSize) as Hs.
  cbv zeta in Hs. rewrite Hs.
  eexists. reflexivity.
Qed.

(** X7.  Rebuilding is idempotent on the Metadata: after a successful call,
    a second call on the Metadata it left, for the same file and the same
    answers of the file system, returns the same reader and leaves that
    Metadata unchanged (only the log may differ). *)
Theorem NewReaderFromMetadata_idempotent (f : Factory) (file : File)
    (m m' : Metadata) (log : list LogEntry) (r : Reader) :
  call f file m = (m', log, Ok r) ->
  exists log', call f file m' = (m', log', Ok r).
Proof.
  rewrite !NewReaderFromMetadata_eq.
  destruct (Z.gtb_spec (Len (Fingerprint m)) (FingerprintSize f)) as [Hgt|Hle].
  - destruct (NewFingerprint NewFromFile f file) as [e|shorter] eqn:Hnew; [discriminate|].
    destruct (StartsWith (Fingerprint m) shorter); [|discriminate].
    intros H. apply continueConstruction_idempotent in H as [Hfp [log' H]].
    simpl in Hfp. exists log'.
    destruct (Len (Fingerprint m') >? FingerprintSize f); [|exact H].
    rewrite Hfp, StartsWith_refl, <- Hfp, set_Fingerprint_same. exact H.
  - intros H. apply continueConstruction_idempotent in H as [Hfp [log' H]].
    simpl in Hfp. exists log'. rewrite Hfp.
    destruct (Z.gtb_spec (Len (Fingerprint m)) (FingerprintSize f)); [lia|exact H].
Qed.

Lemma continueConstruction_frame (f : Factory) (file : File) (s : State) :
  let s' := (continueConstruction Stat header_NewReader Resolve f file s).1 in
  HeaderFinalized (meta s') = HeaderFinalized (meta s) /\
  FileType (meta s') = FileType (meta s) /\
  Fingerprint (meta s') = Fingerprint (meta s).
Proof.
  rewrite continueConstruction_eq.
  destruct (Stat file) as [e|fileSize]; [done|]. cbv zeta.
  destruct (match HeaderConfig f with Some _ => _ | None => _ end); [done|].
  destruct (Resolve file); [done|].
  by destruct (maps_Copy _ _).
Qed.

(** X5.  Whatever the call returns, it leaves [HeaderFinalized] and
    [FileType] of the Metadata as they were, and the fingerprint it leaves
    is a byte-prefix of the one it found. *)
Theorem NewReaderFromMetadata_frame (f : Factory) (file : File) (m : Metadata) :
  let m' := (call f file m).1.1 in
  HeaderFinalized m' = HeaderFinalized m /\
  FileType m' = FileType m /\
  firstBytes (Fingerprint m') `prefix_of` firstBytes (Fingerprint m).
Proof.
  rewrite NewReaderFromMetadata_eq.
  destruct (Len (Fingerprint m) >? FingerprintSize f).
  - destruct (NewFingerprint NewFromFile f file) as [e|shorter]; [done|].
    destruct (StartsWith (Fingerprint m) shorter) eqn:Hsw; [|done].
    pose proof (continueConstruction_frame f file
                  {| meta := set_Fingerprint shorter m; logged := [] |}) as (H1 & H2 & H3).
    destruct (continueConstruction _ _ _ _ _ _) as [s out]. simpl in *.
    rewrite H1, H2, H3. repeat split.
    unfold StartsWith in Hsw. by apply bool_decide_eq_true in Hsw.
  - pose proof (continueConstruction_frame f file {| meta := m; logged := [] |})
      as (H1 & H2 & H3).
    destruct (continueConstruction _ _ _ _ _ _) as [s out]. simpl in *.
    by rewrite H1, H2, H3.
Qed.

(** X6.  A reader is never started beyond the end of its file: for a file
    of non-negative size the offset of the reader returned is at most that
    size, and it is non-negative when the stored offset was. *)
Theorem NewReaderFromMetadata_offset_within_file (f : Factory) (file : File)
    (m m' : Metadata) (log : list LogEntry) (r : Reader) (fileSize : Z) :
  call f file m = (m', log, Ok r) ->
  Stat file = inr fileSize ->
  0 <= fileSize ->
  Offset (Reader_Metadata r) <= fileSize /\
  (0 <= Offset m -> 0 <= Offset (Reader_Metadata r)).
Proof.
  intros Hcall Hstat Hsize.
  apply NewReaderFromMetadata_Ok_inv in Hcall
    as (-> & size & attributes & Hstat' & _ & Hoff & _).
  rewrite Hstat in Hstat'. injection Hstat' as <-.
  rewrite Hoff. cbv zeta.
  destruct (Z.gtb_spec (Offset m) fileSize); simpl;
    [destruct (FromBeginning f); lia|].
  destruct (Z.eqb_spec (Offset m) 0); [destruct (FromBeginning f)|]; lia.
Qed.

(** X4.  A call that returns no reader has not touched the Metadata's
    attributes: the merge is the last step. *)
Theorem NewReaderFromMetadata_failure_keeps_attributes (f : Factory) (file : File)
    (m m' : Metadata) (log : list LogEntry) (out : Outcome Reader) :
  call f file m = (m', log, out) ->
  (forall r, out <> Ok r) ->
  FileAttributes m' = FileAttributes m.
Proof.
  rewrite NewReaderFromMetadata_eq.
  assert (forall s : State,
            (let '(s', out) := continueConstruction Stat header_NewReader Resolve f file s in
             (meta s', logged s', out)) = (m', log, out) ->
            (forall r, out <> Ok r) ->
            FileAttributes m' = FileAttributes (meta s)) as Hrest.
  { intros s. rewrite continueConstruction_eq.
    destruct (Stat file) as [e|fileSize]; [by intros [= <- _ _]|]. cbv zeta.
    destruct (match HeaderConfig f with Some _ => _ | None => _ end);
      [by intros [= <- _ _]|].
    destruct (Resolve file); [by intros [= <- _ _]|].
    destruct (maps_Copy _ _); [|by intros [= <- _ _]..].
    intros [= _ _ <-] H. by destruct (H _ eq_refl). }
  destruct (Len (Fingerprint m) >? FingerprintSize f).
  - destruct (NewFingerprint NewFromFile f file) as [e|shorter]; [by intros [= <- _ _]|].
    destruct (StartsWith (Fingerprint m) shorter); [|by intros [= <- _ _]].
    apply Hrest.
  - apply Hrest.
Qed.

(** X3.  When the stat fails nothing is logged and the Metadata's offset
    and attributes are left as they were; the error returned is the stat
    error wrapped as "stat: ..." exactly when the fingerprint check had
    passed. *)
Theorem NewReaderFromMetadata_stat_failure (f : Factory) (file : File)
    (m m' : Metadata) (log : list LogEntry) (out : Outcome Reader) (statErr : error) :
  Stat file = inl statErr ->
  call f file m = (m', log, out) ->
  log = [] /\ Offset m' = Offset m /\ FileAttributes m' = FileAttributes m /\
  (out = Err (fmt_Errorf_w "stat" statErr) <->
   (Len (Fingerprint m) <= FingerprintSize f \/
    exists shorter, NewFingerprint NewFromFile f file = inr shorter /\
                    StartsWith (Fingerprint m) shorter = true)).
Proof.
  intros Hstat. rewrite NewReaderFromMetadata_eq, !continueConstruction_eq, Hstat.
  destruct (Z.gtb_spec (Len (Fingerprint m)) (FingerprintSize f)) as [Hgt|Hle].
  - destruct (NewFingerprint NewFromFile f file) as [e|shorter]; simpl.
    { intros [= <- <- <-]. repeat split; [discriminate|].
      intros [?|(? & [=] & _)]; lia. }
    destruct (StartsWith (Fingerprint m) shorter) eqn:Hsw; simpl.
    + rewrite continueConstruction_eq, Hstat. simpl.
      intros [= <- <- <-]. repeat split. right. by exists shorter.
    + intros [= <- <- <-]. repeat split; [discriminate|].
      intros [?|(? & [= <-] & ?)]; [lia|congruence].
  - simpl. intros [= <- <- <-]. repeat split. by left.
Qed.

(** X11.  If the stored fingerprint is what [NewFingerprint] reads from
    the file now, the fingerprint check passes whatever the configured
    size: the call is the rest of the construction run on the Metadata as
    passed, and the fingerprint is kept. *)
Theorem NewReaderFromMetadata_fresh_fingerprint (f : Factory) (file : File) (m : Metadata) :
  NewFingerprint NewFromFile f file = inr (Fingerprint m) ->
  call f file m =
  (let '(s, out) := continueConstruction Stat header_NewReader Resolve f file
                      {| meta := m; logged := [] |} in
   (meta s, logged s, out)) /\
  Fingerprint (call f file m).1.1 = Fingerprint m.
Proof.
  intros Hnew.
  assert (call f file m =
          (let '(s, out) := continueConstruction Stat header_NewReader Resolve f file
                              {| meta := m; logged := [] |} in
           (meta s, logged s, out))) as Heq.
  { rewrite NewReaderFromMetadata_eq, Hnew, StartsWith_refl, set_Fingerprint_same.
    by destruct (_ >? _). }
  split; [exact Heq|]. rewrite Heq.
  pose proof (continueConstruction_frame f file {| meta := m; logged := [] |})
    as (_ & _ & H).
  by destruct (continueConstruction _ _ _ _ _ _).
Qed.

(** X2.  The call panics exactly when every step before the merge passes,
    the Metadata's attribute map is nil and the resolver returns at least
    one attribute: [maps.Copy] then assigns into a nil map. *)
Theorem NewReaderFromMetadata_panics_iff (f : Factory) (file : File) (m : Metadata) :
  (exists m' log msg, call f file m = (m', log, Panic msg)) <->
  (Len (Fingerprint m) <= FingerprintSize f \/
   exists shorter, NewFingerprint NewFromFile f file = inr shorter /\
                   StartsWith (Fingerprint m) shorter = true) /\
  (exists fileSize, Stat file = inr fileSize) /\
  (forall cfg, HeaderConfig f = Some cfg -> HeaderFinalized m = false ->
               exists hr, header_NewReader cfg = inr hr) /\
  FileAttributes m = None /\
  (exists attributes, Resolve file = inr attributes /\ attributes <> ∅).
Proof.
  rewrite NewReaderFromMetadata_eq.
  assert (forall s : State,
    (exists m' log msg,
       (let '(s', out) := continueConstruction Stat header_NewReader Resolve f file s in
        (meta s', logged s', out)) = (m', log, Panic msg)) <->
    (exists fileSize, Stat file = inr fileSize) /\
    (forall cfg, HeaderConfig f = Some cfg -> HeaderFinalized (meta s) = false ->
                 exists hr, header_NewReader cfg = inr hr) /\
    FileAttributes (meta s) = None /\
    (exists attributes, Resolve file = inr attributes /\ attributes <> ∅)) as Hrest.
  { intros s. continue_cases f file s; simpl; try naive_solver.
    split; [intros (? & ? & ? & [=])|].
    intros (_ & Hh & _). destruct (Hh _ eq_refl eq_refl) as [? ?]. congruence. }
  destruct (Z.gtb_spec (Len (Fingerprint m)) (FingerprintSize f)) as [Hgt|Hle].
  - destruct (NewFingerprint NewFromFile f file) as [e|shorter] eqn:Hnew.
    { split; [intros (? & ? & ? & [=])|].
      intros ([?|(? & [=] & _)] & _); lia. }
    destruct (StartsWith (Fingerprint m) shorter) eqn:Hsw.
    + rewrite Hrest. simpl. split.
      * intros H. split; [|exact H]. right. by exists shorter.
      * by intros [_ H].
    + split; [intros (? & ? & ? & [=])|].
      intros ([?|(? & [= <-] & ?)] & _); [lia|congruence].
  - rewrite Hrest. simpl. split.
    + intros H. split; [by left|exact H].
    + by intros [_ H].
Qed.

Lemma continueConstruction_logged (f : Factory) (file : File) (s : State) :
  logged (continueConstruction Stat header_NewReader Resolve f file s).1 =
  match Stat file with
  | inl _ => logged s
  | inr fileSize =>
      let reset := Offset (meta s) >? fileSize in
      let stored := if reset then 0 else Offset (meta s) in
      logged s
      ++ (if reset
          then [Warn_offset_exceeds_file_size (Name file) (Offset (meta s)) fileSize]
          else [])
      ++ [if stored =? 0
          then if FromBeginning f then Debug_starting_at_0 (Name file)
               else Debug_tailing_from_EOF (Name file) fileSize
          else Debug_resuming_from_saved_offset (Name file) stored fileSize]
  end.
Proof.
  rewrite continueConstruction_eq.
  destruct (Stat file) as [e|fileSize]; [done|]. cbv zeta.
  destruct (match HeaderConfig f with Some _ => _ | None => _ end); [done|].
  destruct (Resolve file); [done|].
  by destruct (maps_Copy _ _).
Qed.

(** X8.  The copy-truncate warning is logged exactly when the call reaches
    the stat and the stored offset exceeds the size reported, and it
    carries the file's name, that offset and that size. *)
Theorem NewReaderFromMetadata_warns_iff (f : Factory) (file : File) (m : Metadata)
    (path : string) (offset size : Z) :
  Warn_offset_exceeds_file_size path offset size ∈ (call f file m).1.2 <->
  (Len (Fingerprint m) <= FingerprintSize f \/
   exists shorter, NewFingerprint NewFromFile f file = inr shorter /\
                   StartsWith (Fingerprint m) shorter = true) /\
  Stat file = inr size /\
  path = Name file /\ offset = Offset m /\ Offset m > size.
Proof.
  rewrite NewReaderFromMetadata_eq.
  assert (forall s : State, logged s = [] ->
    Warn_offset_exceeds_file_size path offset size
      ∈ logged (continueConstruction Stat header_NewReader Resolve f file s).1 <->
    Stat file = inr size /\ path = Name file /\ offset = Offset (meta s) /\
    Offset (meta s) > size) as Hrest.
  { intros s Hs. rewrite continueConstruction_logged, Hs.
    destruct (Stat file) as [e|fileSize]; simpl.
    { split; [intros H; inversion H|intros [[=] _]]. }
    destruct (Z.gtb_spec (Offset (meta s)) fileSize) as [Hgt|Hle]; simpl.
    - rewrite elem_of_cons, list_elem_of_singleton. split.
      + intros [[= -> -> ->]|H]; [repeat split; lia|].
        destruct (FromBeginning f); discriminate H.
      + intros ([= ->] & -> & -> & _). by left.
    - rewrite list_elem_of_singleton. split.
      + intros H. destruct (_ =? _); [destruct (FromBeginning f)|]; discriminate H.
      + intros ([= ->] & _ & _ & H). lia. }
  destruct (Z.gtb_spec (Len (Fingerprint m)) (FingerprintSize f)) as [Hgt|Hle].
  - destruct (NewFingerprint NewFromFile f file) as [e|shorter] eqn:Hnew; simpl.
    { split; [intros H; inversion H|].
      intros ([?|(? & [=] & _)] & _); lia. }
    destruct (StartsWith (Fingerprint m) shorter) eqn:Hsw; simpl.
    + specialize (Hrest {| meta := set_Fingerprint shorter m; logged := [] |} eq_refl).
      destruct (continueConstruction _ _ _ _ _ _) as [s' out]. simpl in *.
      rewrite Hrest. split; [|tauto].
      intros H. split; [|exact H]. right. by exists shorter.
    + split; [intros H; inversion H|].
      intros ([?|(? & [= <-] & ?)] & _); [lia|congruence].
  - specialize (Hrest {| meta := m; logged := [] |} eq_refl).
    destruct (continueConstruction _ _ _ _ _ _) as [s' out]. simpl in *.
    rewrite Hrest. split; [|tauto]. intros H. split; [by left|exact H].
Qed.

(** X9.  The reader returned has no header reader exactly when no header
    configuration is set or the header is already finalized; otherwise it
    holds the header reader built from the configuration. *)
Theorem NewReaderFromMetadata_header_reader (f : Factory) (file : File)
    (m m' : Metadata) (log : list LogEntry) (r : Reader) :
  call f file m = (m', log, Ok r) ->
  (headerReader r = None <-> HeaderConfig f = None \/ HeaderFinalized m = true) /\
  (forall hr, headerReader r = Some hr ->
     exists cfg, HeaderConfig f = Some cfg /\ header_NewReader cfg = inr hr).
Proof.
  rewrite NewReaderFromMetadata_eq.
  assert (forall s : State,
    (let '(s', out) := continueConstruction Stat header_NewReader Resolve f file s in
     (meta s', logged s', out)) = (m', log, Ok r) ->
    (headerReader r = None <-> HeaderConfig f = None \/ HeaderFinalized (meta s) = true) /\
    (forall hr, headerReader r = Some hr ->
       exists cfg, HeaderConfig f = Some cfg /\ header_NewReader cfg = inr hr)) as Hrest.
  { intros s. continue_cases f file s; simpl; naive_solver. }
  destruct (Len (Fingerprint m) >? FingerprintSize f).
  - destruct (NewFingerprint NewFromFile f file) as [e|shorter]; [discriminate|].
    destruct (StartsWith (Fingerprint m) shorter); [|discriminate].
    apply Hrest.
  - apply Hrest.
Qed.

Variable gzipExtension : string.
Variable ResolveNew : File -> error + option (gmap string any).

Local Abbreviation newReader :=
  (NewReader NewFromFile Stat header_NewReader Resolve gzipExtension ResolveNew).

(** A successful [NewReader] is a successful [NewReaderFromMetadata] on the
    Metadata it allocates. *)
Lemma NewReader_Ok_inv (f : Factory) (file : File) (fp : fingerprint.Fingerprint)
    (log : list LogEntry) (r : Reader) :
  newReader f file fp = (log, Ok r) ->
  exists (first : option (gmap string any)) (m' : Metadata),
    ResolveNew file = inr first /\
    call f file
      {| Fingerprint := fp; Offset := 0; FileAttributes := first;
         HeaderFinalized := false;
         FileType := if bool_decide (filepath_Ext (Name file) = gzipExtension)
                     then gzipExtension else EmptyString |}
    = (m', log, Ok r).
Proof.
  unfold NewReader.
  destruct (ResolveNew file) as [e|first]; [discriminate|].
  destruct (call f file _) as [[m' log'] out] eqn:Hcall.
  intros [= <- <-]. by exists first, m'.
Qed.

(** X13.  A reader made by [NewReader] starts at 0 under FromBeginning and
    at the size of the file otherwise. *)
Theorem NewReader_starting_offset (f : Factory) (file : File)
    (fp : fingerprint.Fingerprint) (log : list LogEntry) (r : Reader) :
  newReader f file fp = (log, Ok r) ->
  exists fileSize : Z,
    Stat file = inr fileSize /\
    Offset (Reader_Metadata r) = (if FromBeginning f then 0 else fileSize).
Proof.
  intros H. apply NewReader_Ok_inv in H as (first & m' & _ & Hcall).
  apply NewReaderFromMetadata_Ok_inv in Hcall
    as (-> & fileSize & attributes & Hstat & _ & Hoff & _).
  exists fileSize. split; [exact Hstat|].
  rewrite Hoff. simpl. by destruct (0 >? fileSize).
Qed.

(** X14.  The attributes of a reader made by [NewReader] are those of the
    second resolution (inside [NewReaderFromMetadata]) over those of the
    first: a key takes the second value if there is one, else the first. *)
Theorem NewReader_attributes (f : Factory) (file : File)
    (fp : fingerprint.Fingerprint) (log : list LogEntry) (r : Reader) :
  newReader f file fp = (log, Ok r) ->
  exists (first : option (gmap string any)) (second : gmap string any),
    ResolveNew file = inr first /\
    Resolve file = inr second /\
    forall k : string,
      attribute (Reader_Metadata r) k =
      match second !! k with
      | Some v => Some v
      | None => first ≫= (.!! k)
      end.
Proof.
  intros H. apply NewReader_Ok_inv in H as (first & m' & Hfirst & Hcall).
  apply NewReaderFromMetadata_Ok_inv in Hcall
    as (-> & fileSize & second & _ & Hsecond & _ & Hcopy).
  exists first, second. split; [exact Hfirst|]. split; [exact Hsecond|].
  intros k. rewrite (maps_Copy_lookup _ m' second k Hcopy).
  destruct (second !! k); [reflexivity|]. unfold attribute. simpl.
  by destruct first.
Qed.

(** X15.  For a gzip extension made of a dot and characters that are
    neither dot nor slash, a reader made by [NewReader] has [FileType]
    equal to the extension or empty, and equal to the extension exactly
    when the file name ends with it. *)
Theorem NewReader_gzip_file_type (f : Factory) (file : File)
    (fp : fingerprint.Fingerprint) (log : list LogEntry) (r : Reader) (ext : string) :
  gzipExtension = String "."%char ext ->
  Forall (fun c => c <> "/"%char /\ c <> "."%char) (String.list_ascii_of_string ext) ->
  newReader f file fp = (log, Ok r) ->
  (FileType (Reader_Metadata r) = gzipExtension \/
   FileType (Reader_Metadata r) = EmptyString) /\
  (FileType (Reader_Metadata r) = gzipExtension <->
   exists base : string, Name file = String.append base gzipExtension).
Proof.
  intros Hgz Hext H. apply NewReader_Ok_inv in H as (first & m' & _ & Hcall).
  pose proof (NewReaderFromMetadata_frame f file
                {| Fingerprint := fp; Offset := 0; FileAttributes := first;
                   HeaderFinalized := false;
                   FileType := if bool_decide (filepath_Ext (Name file) = gzipExtension)
                               then gzipExtension else EmptyString |}) as (_ & Hft & _).
  rewrite Hcall in Hft. simpl in Hft.
  apply NewReaderFromMetadata_Ok_inv in Hcall as (-> & _).
  rewrite Hft. case_bool_decide as Hx.
  - split; [by left|]. split; [|done]. intros _.
    destruct (filepath_Ext_suffix (Name file)) as [base Hbase].
    exists base. by rewrite <- Hx.
  - split; [by right|]. split.
    + intros Heq. rewrite Hgz in Heq. discriminate Heq.
    + intros [base Hbase]. destruct Hx.
      rewrite Hbase, Hgz. by apply filepath_Ext_dot.
Qed.

(** X12.  [NewReader] returns a reader exactly when both resolutions
    succeed (the second giving nothing if the first gave a nil map), the
    fingerprint check passes, the stat succeeds and, if a header
    configuration is set, the header reader can be built. *)
Theorem NewReader_succeeds_iff (f : Factory) (file : File)
    (fp : fingerprint.Fingerprint) :
  (exists log r, newReader f file fp = (log, Ok r)) <->
  (exists first second,
     ResolveNew file = inr first /\ Resolve file = inr second /\
     (first = None -> second = ∅)) /\
  (Len fp <= FingerprintSize f \/
   exists shorter, NewFingerprint NewFromFile f file = inr shorter /\
                   StartsWith fp shorter = true) /\
  (exists fileSize, Stat file = inr fileSize) /\
  (forall cfg, HeaderConfig f = Some cfg -> exists hr, header_NewReader cfg = inr hr).
Proof.
  unfold NewReader.
  destruct (ResolveNew file) as [e|first].
  { split; [intros (? & ? & [=])|intros ((? & ? & [=] & _) & _)]. }
  set (m := {| Fingerprint := fp; Offset := 0; FileAttributes := first;
               HeaderFinalized := false; FileType := _ |}).
  pose proof (NewReaderFromMetadata_succeeds_iff f file m) as Hiff. simpl in Hiff.
  split.
  - intros (log & r & H).
    destruct (call f file m) as [[m' log'] out] eqn:Hcall.
    injection H as <- ->.
    destruct Hiff as [Hiff _].
    destruct Hiff as (Hfp & Hstat & Hh & (second & Hsecond & Hnil)); [by eexists _, _, _|].
    split; [by exists first, second|]. split; [exact Hfp|]. split; [exact Hstat|].
    intros cfg Hcfg. by apply Hh.
  - intros ((first' & second & [= <-] & Hsecond & Hnil) & Hfp & Hstat & Hh).
    destruct Hiff as [_ Hiff].
    destruct Hiff as (m' & log & r & Hcall).
    { split; [exact Hfp|]. split; [exact Hstat|]. split; [by intros cfg Hcfg _; apply Hh|].
      by exists second. }
    rewrite Hcall. by exists log, r.
Qed.
End ExtraFactory.

(** X10.  When no header configuration is set or the header is already
    finalized, [header.NewReader] is not consulted: the call is the same
    whatever building a header reader would give. *)
Theorem NewReaderFromMetadata_header_not_built
    (NewFromFile : File -> Z -> bool -> error + fingerprint.Fingerprint)
    (Stat : File -> error + Z)
    (h1 h2 : header.Config -> error + header.Reader)
    (Resolve : File -> error + gmap string any)
    (f : reader.Factory) (file : File) (m : reader.Metadata) :
  reader.HeaderConfig f = None \/ reader.HeaderFinalized m = true ->
  reader.NewReaderFromMetadata NewFromFile Stat h1 Resolve f file m
  = reader.NewReaderFromMetadata NewFromFile Stat h2 Resolve f file m.
Proof.
  intros Hno.
  assert (forall s, reader.HeaderFinalized (reader.meta s) = reader.HeaderFinalized m ->
            reader.continueConstruction Stat h1 Resolve f file s
            = reader.continueConstruction Stat h2 Resolve f file s) as Hrest.
  { intros s Hs. rewrite !continueConstruction_eq, Hs.
    destruct Hno as [->| ->]; [reflexivity|].
    by destruct (reader.HeaderConfig f). }
  rewrite !NewReaderFromMetadata_eq.
  destruct (_ >? _).
  - destruct (reader.NewFingerprint NewFromFile f file) as [e|shorter]; [reflexivity|].
    destruct (fingerprint.StartsWith _ _); [|reflexivity].
    by rewrite Hrest.
  - by rewrite Hrest.
Qed.

(** * More on the reconciler *)
Section ExtraReconciler.
Import fileconsumer.

Variable Validate : reader.Reader -> bool.

Local Abbreviation fpOf r := (reader.Fingerprint (reader.Reader_Metadata r)).
Local Abbreviation scan := (scanCurrentPollFiles Validate).

(** X16.  When reconciliation runs, a reader is in the lost set exactly
    when it is a previous-poll reader, no current reader's fingerprint
    starts with its own, and, if some current reader has its name, it
    validates. *)
Theorem lostReaders_iff (m : Manager) (oldReader : reader.Reader) :
  reader.DeleteAtEOF (readerFactory m) = false ->
  (oldReader ∈ lostReaders (readLostFiles Validate m) <->
   oldReader ∈ PreviousPollFiles (tracker m) /\
   (forall n, n ∈ CurrentPollFiles (tracker m) ->
              fingerprint.StartsWith (fpOf n) (fpOf oldReader) = false) /\
   ((exists n, n ∈ CurrentPollFiles (tracker m) /\
               reader.NameEquals n oldReader = true) ->
    Validate oldReader = true)).
Proof.
  intros Hd. rewrite (elem_of_lostReaders Validate m oldReader Hd).
  split.
  - intros [Hold Hscan]. split; [exact Hold|]. split.
    + intros n Hn.
      destruct (fingerprint.StartsWith (fpOf n) (fpOf oldReader)) eqn:Hsw; [|done].
      assert ((scan oldReader (CurrentPollFiles (tracker m))).2 = true) as Hc.
      { apply scan_cleared_iff. left. by exists n. }
      congruence.
    + intros (n & Hn & Hname).
      destruct (Validate oldReader) eqn:Hval; [done|].
      assert ((scan oldReader (CurrentPollFiles (tracker m))).2 = true) as Hc.
      { apply scan_cleared_iff. right. by exists n. }
      congruence.
  - intros (Hold & Hnone & Hval). split; [exact Hold|].
    destruct ((scan oldReader (CurrentPollFiles (tracker m))).2) eqn:Hscan; [|done].
    apply scan_cleared_iff in Hscan as [(n & Hn & Hsw)|(n & Hn & Hname & Hv)].
    + rewrite (Hnone n Hn) in Hsw. discriminate.
    + rewrite Hval in Hv; [discriminate|]. by exists n.
Qed.

(** Whether the scan clears depends on which current readers there are,
    not on where they stand. *)
Lemma scan_cleared_elem_of (oldReader : reader.Reader) (current current' : list reader.Reader) :
  (forall n, n ∈ current -> n ∈ current') ->
  (scan oldReader current).2 = true -> (scan oldReader current').2 = true.
Proof.
  intros Hsub. rewrite !scan_cleared_iff.
  intros [(n & Hn & H)|(n & Hn & H)]; [left|right]; exists n; split; auto.
Qed.

(** X17.  The lost set does not depend on the order of the current files:
    two polls that differ only by a permutation of CurrentPollFiles lose
    the same readers, in the same order. *)
Theorem lostReaders_order_of_current (m m' : Manager) :
  reader.DeleteAtEOF (readerFactory m) = reader.DeleteAtEOF (readerFactory m') ->
  PreviousPollFiles (tracker m) = PreviousPollFiles (tracker m') ->
  CurrentPollFiles (tracker m) ≡ₚ CurrentPollFiles (tracker m') ->
  lostReaders (readLostFiles Validate m) = lostReaders (readLostFiles Validate m').
Proof.
  intros Hd Hprev Hperm.
  destruct (reader.DeleteAtEOF (readerFactory m)) eqn:Hm.
  - destruct (lostReaders_DeleteAtEOF Validate m Hm) as [-> _].
    symmetry in Hd. by destruct (lostReaders_DeleteAtEOF Validate m' Hd) as [-> _].
  - symmetry in Hd.
    rewrite (readLostFiles_unfold Validate m Hm), (readLostFiles_unfold Validate m' Hd).
    simpl. rewrite Hprev. apply list_filter_iff. intros o.
    assert ((scan o (CurrentPollFiles (tracker m))).2
            = (scan o (CurrentPollFiles (tracker m'))).2) as ->; [|done].
    apply eq_true_iff_eq. split; apply scan_cleared_elem_of; intros n Hn.
    + by rewrite <- Hperm.
    + by rewrite Hperm.
Qed.

(** X18.  More current files never lose more readers: a reader lost
    against a larger set of current files is lost against a smaller
    one. *)
Theorem lostReaders_more_current (m m' : Manager) (oldReader : reader.Reader) :
  reader.DeleteAtEOF (readerFactory m) = reader.DeleteAtEOF (readerFactory m') ->
  PreviousPollFiles (tracker m) = PreviousPollFiles (tracker m') ->
  (forall n, n ∈ CurrentPollFiles (tracker m) -> n ∈ CurrentPollFiles (tracker m')) ->
  oldReader ∈ lostReaders (readLostFiles Validate m') ->
  oldReader ∈ lostReaders (readLostFiles Validate m).
Proof.
  intros Hd Hprev Hsub.
  destruct (reader.DeleteAtEOF (readerFactory m')) eqn:Hm'.
  - destruct (lostReaders_DeleteAtEOF Validate m' Hm') as [-> _]. intros H. inversion H.
  - rewrite (elem_of_lostReaders Validate m oldReader Hd),
            (elem_of_lostReaders Validate m' oldReader Hm'), Hprev.
    intros [Hold Hscan]. split; [exact Hold|].
    destruct ((scan oldReader (CurrentPollFiles (tracker m))).2) eqn:Hc; [|done].
    apply (scan_cleared_elem_of _ _ _ Hsub) in Hc. congruence.
Qed.

(** X19.  The lost set is a sub-sequence of PreviousPollFiles: only
    previous-poll readers are drained, each at most as often as it is
    tracked, in tracking order. *)
Theorem lostReaders_sublist (m : Manager) :
  lostReaders (readLostFiles Validate m) `sublist_of` PreviousPollFiles (tracker m).
Proof.
  destruct (reader.DeleteAtEOF (readerFactory m)) eqn:Hd.
  - destruct (lostReaders_DeleteAtEOF Validate m Hd) as [-> _]. apply sublist_nil_l.
  - rewrite (readLostFiles_unfold Validate m Hd). simpl. apply sublist_filter.
Qed.

(** X20.  When reconciliation runs and no file is currently matched, every
    previous-poll reader is lost and drained, and nothing is examined or
    validated: the log only announces the drains. *)
Theorem readLostFiles_no_current_files (m : Manager) :
  reader.DeleteAtEOF (readerFactory m) = false ->
  CurrentPollFiles (tracker m) = [] ->
  lostReaders (readLostFiles Validate m) = PreviousPollFiles (tracker m) /\
  readToEnd (readLostFiles Validate m) = PreviousPollFiles (tracker m) /\
  debugLog (readLostFiles Validate m)
  = map Debug_reading_lost_file (PreviousPollFiles (tracker m)).
Proof.
  intros Hd Hcur. rewrite (readLostFiles_unfold Validate m Hd), Hcur. simpl.
  assert (filter (fun _ : reader.Reader => false = false) (PreviousPollFiles (tracker m))
          = PreviousPollFiles (tracker m)) as ->.
  { induction (PreviousPollFiles (tracker m)) as [|o l IH]; [done|].
    by rewrite filter_cons_True, IH. }
  repeat split.
  assert (concat (map (fun _ : reader.Reader => @nil LogEntry)
                      (PreviousPollFiles (tracker m))) = []) as ->; [|done].
  by induction (PreviousPollFiles (tracker m)).
Qed.

(** What each record of one scan says is true of the readers it names. *)
Lemma scan_log_sound (oldReader : reader.Reader) (current : list reader.Reader)
    (e : LogEntry) :
  e ∈ (scan oldReader current).1 ->
  match e with
  | Debug_lost_check o n => o = oldReader /\ n ∈ current
  | Debug_startswith_matched o n =>
      o = oldReader /\ n ∈ current /\
      fingerprint.StartsWith (fpOf n) (fpOf oldReader) = true
  | Debug_rotated_truncated o =>
      o = oldReader /\ Validate oldReader = false /\
      exists n, n ∈ current /\ reader.NameEquals n oldReader = true /\
                fingerprint.StartsWith (fpOf n) (fpOf oldReader) = false
  | Debug_rotated_moved o =>
      o = oldReader /\ Validate oldReader = true /\
      exists n, n ∈ current /\ reader.NameEquals n oldReader = true /\
                fingerprint.StartsWith (fpOf n) (fpOf oldReader) = false
  | Debug_reading_lost_file _ => False
  end.
Proof.
  assert (forall n rest (e : LogEntry),
    match e with
    | Debug_lost_check o x => o = oldReader /\ x ∈ rest
    | Debug_startswith_matched o x =>
        o = oldReader /\ x ∈ rest /\
        fingerprint.StartsWith (fpOf x) (fpOf oldReader) = true
    | Debug_rotated_truncated o =>
        o = oldReader /\ Validate oldReader = false /\
        exists x, x ∈ rest /\ reader.NameEquals x oldReader = true /\
                  fingerprint.StartsWith (fpOf x) (fpOf oldReader) = false
    | Debug_rotated_moved o =>
        o = oldReader /\ Validate oldReader = true /\
        exists x, x ∈ rest /\ reader.NameEquals x oldReader = true /\
                  fingerprint.StartsWith (fpOf x) (fpOf oldReader) = false
    | Debug_reading_lost_file _ => False
    end ->
    match e with
    | Debug_lost_check o x => o = oldReader /\ x ∈ n :: rest
    | Debug_startswith_matched o x =>
        o = oldReader /\ x ∈ n :: rest /\
        fingerprint.StartsWith (fpOf x) (fpOf oldReader) = true
    | Debug_rotated_truncated o =>
        o = oldReader /\ Validate oldReader = false /\
        exists x, x ∈ n :: rest /\ reader.NameEquals x oldReader = true /\
                  fingerprint.StartsWith (fpOf x) (fpOf oldReader) = false
    | Debug_rotated_moved o =>
        o = oldReader /\ Validate oldReader = true /\
        exists x, x ∈ n :: rest /\ reader.NameEquals x oldReader = true /\
                  fingerprint.StartsWith (fpOf x) (fpOf oldReader) = false
    | Debug_reading_lost_file _ => False
    end) as Hweaken.
  { intros n rest [o x|o x|o|o|r]; [| | | |done].
    - intros [-> Hx]. split; [done|by right].
    - intros (-> & Hx & H). split; [done|]. split; [by right|done].
    - intros (-> & Hv & x & Hx & H). split; [done|]. split; [done|].
      exists x. split; [by right|done].
    - intros (-> & Hv & x & Hx & H). split; [done|]. split; [done|].
      exists x. split; [by right|done]. }
  induction current as [|n rest IH]; simpl; [intros H; inversion H|].
  destruct (fingerprint.StartsWith (fpOf n) (fpOf oldReader)) eqn:Hsw; simpl.
  { intros H. apply elem_of_cons in H as [->|H]; [split; [done|left]|].
    apply list_elem_of_singleton in H as ->. split; [done|]. split; [left|done]. }
  destruct (reader.NameEquals n oldReader) eqn:Hname; simpl.
  - destruct (Validate oldReader) eqn:Hval; simpl.
    + destruct (scan oldReader rest) as [log cleared]; simpl in *.
      intros H. apply elem_of_cons in H as [->|H]; [split; [done|left]|].
      apply elem_of_cons in H as [->|H].
      { split; [done|]. split; [done|]. exists n. split; [left|done]. }
      by apply Hweaken, IH.
    + intros H. apply elem_of_cons in H as [->|H]; [split; [done|left]|].
      apply list_elem_of_singleton in H as ->.
      split; [done|]. split; [done|]. exists n. split; [left|done].
  - destruct (scan oldReader rest) as [log cleared]; simpl in *.
    intros H. apply elem_of_cons in H as [->|H]; [split; [done|left]|].
    by apply Hweaken, IH.
Qed.

(** A record of the call comes from the scan of a previous-poll reader, or
    announces the draining of a lost reader. *)
Lemma elem_of_debugLog (m : Manager) (e : LogEntry) :
  e ∈ debugLog (readLostFiles Validate m) ->
  (exists o, o ∈ PreviousPollFiles (tracker m) /\
             e ∈ (scan o (CurrentPollFiles (tracker m))).1) \/
  (exists r, r ∈ lostReaders (readLostFiles Validate m) /\
             e = Debug_reading_lost_file r).
Proof.
  destruct (reader.DeleteAtEOF (readerFactory m)) eqn:Hd.
  - destruct (lostReaders_DeleteAtEOF Validate m Hd) as [_ ->]. intros H. inversion H.
  - rewrite (readLostFiles_unfold Validate m Hd). simpl.
    rewrite elem_of_app. intros [H|H].
    + left. apply list_elem_of_In, in_concat in H as (log & Hlog & H).
      apply in_map_iff in Hlog as (o & <- & Ho).
      exists o. split; by apply list_elem_of_In.
    + right. apply list_elem_of_In, in_map_iff in H as (r & <- & Hr).
      exists r. split; [by apply list_elem_of_In|done].
Qed.

(** X21.  The rotation records are true: "rotated(truncated)" is logged
    only for a reader that does not validate, and that reader is not lost;
    "rotated(moved)" only for one that validates; either only for a
    previous-poll reader that has a current partner with its name whose
    fingerprint does not start with its own. *)
Theorem readLostFiles_rotation_records (m : Manager) (oldReader : reader.Reader) :
  (Debug_rotated_truncated oldReader ∈ debugLog (readLostFiles Validate m) ->
   Validate oldReader = false /\
   oldReader ∉ lostReaders (readLostFiles Validate m)) /\
  (Debug_rotated_moved oldReader ∈ debugLog (readLostFiles Validate m) ->
   Validate oldReader = true) /\
  (Debug_rotated_truncated oldReader ∈ debugLog (readLostFiles Validate m) \/
   Debug_rotated_moved oldReader ∈ debugLog (readLostFiles Validate m) ->
   oldReader ∈ PreviousPollFiles (tracker m) /\
   exists n, n ∈ CurrentPollFiles (tracker m) /\
             reader.NameEquals n oldReader = true /\
             fingerprint.StartsWith (fpOf n) (fpOf oldReader) = false).
Proof.
  assert (forall e : LogEntry,
            e = Debug_rotated_truncated oldReader \/ e = Debug_rotated_moved oldReader ->
            e ∈ debugLog (readLostFiles Validate m) ->
            exists o, o ∈ PreviousPollFiles (tracker m) /\
                      e ∈ (scan o (CurrentPollFiles (tracker m))).1) as Hfrom.
  { intros e He Hin. apply elem_of_debugLog in Hin as [H|(r & _ & ->)]; [exact H|].
    by destruct He. }
  split; [|split].
  - intros Hin.
    destruct (Hfrom _ (or_introl eq_refl) Hin) as (o & Ho & He).
    apply scan_log_sound in He as (-> & Hval & n & Hn & Hname & _).
    split; [exact Hval|]. intros Hlost.
    destruct (reader.DeleteAtEOF (readerFactory m)) eqn:Hd.
    + destruct (lostReaders_DeleteAtEOF Validate m Hd) as [Hl _].
      rewrite Hl in Hlost. inversion Hlost.
    + apply (lostReaders_iff m o Hd) in Hlost as (_ & _ & Hv).
      rewrite Hv in Hval; [discriminate|]. by exists n.
  - intros Hin.
    destruct (Hfrom _ (or_intror eq_refl) Hin) as (o & Ho & He).
    by apply scan_log_sound in He as (-> & Hval & _).
  - intros [Hin|Hin].
    + destruct (Hfrom _ (or_introl eq_refl) Hin) as (o & Ho & He).
      apply scan_log_sound in He as (-> & _ & H). by split.
    + destruct (Hfrom _ (or_intror eq_refl) Hin) as (o & Ho & He).
      apply scan_log_sound in He as (-> & _ & H). by split.
Qed.

Lemma examined_app (l1 l2 : list LogEntry) :
  examined (l1 ++ l2) = examined l1 ++ examined l2.
Proof.
  induction l1 as [|e l1 IH]; [done|].
  destruct e; simpl; by rewrite IH.
Qed.

(** X22.  A call examines at most one partner per pair of a previous and a
    current reader. *)
Theorem readLostFiles_examined_bound (m : Manager) :
  (length (examined (debugLog (readLostFiles Validate m)))
   <= length (PreviousPollFiles (tracker m)) * length (CurrentPollFiles (tracker m)))%nat.
Proof.
  destruct (reader.DeleteAtEOF (readerFactory m)) eqn:Hd.
  - destruct (lostReaders_DeleteAtEOF Validate m Hd) as [_ ->]. simpl. lia.
  - rewrite (readLostFiles_unfold Validate m Hd). simpl.
    rewrite examined_app.
    assert (forall l, examined (map Debug_reading_lost_file l) = []) as ->
      by (intros l; by induction l).
    rewrite app_nil_r.
    induction (PreviousPollFiles (tracker m)) as [|o l IH]; simpl; [lia|].
    rewrite examined_app, length_app.
    pose proof (prefix_length _ _ (examined_scan_prefix Validate o
                                     (CurrentPollFiles (tracker m)))).
    lia.
Qed.
End ExtraReconciler.

(** * The properties above on concrete calls and polls *)

(** A copy-truncated file read in tail mode: stored offset 1000, 200 bytes
    on disk. *)
Lemma NewReaderFromMetadata_after_copytruncate :
  exists (m' : reader.Metadata) (log : list reader.LogEntry) (r : reader.Reader),
    reader.NewReaderFromMetadata Scenario.reread_ab Scenario.stat_200
      Scenario.header_ok Scenario.resolve_owner
      (Scenario.factory false false 1000 None) Scenario.app_log
      (Scenario.metadata [x61; x62] 1000) = (m', log, Ok r).
Proof. eexists _, _, _. vm_compute. reflexivity. Defined.

(** A file with a header configuration whose header is still to be read. *)
Lemma NewReaderFromMetadata_with_header :
  exists (m' : reader.Metadata) (log : list reader.LogEntry) (r : reader.Reader),
    reader.NewReaderFromMetadata Scenario.reread_ab Scenario.stat_200
      Scenario.header_ok Scenario.resolve_owner
      (Scenario.factory true false 1000 (Some Scenario.header_cfg)) Scenario.app_log
      (Scenario.metadata [x61; x62] 0) = (m', log, Ok r).
Proof. eexists _, _, _. vm_compute. reflexivity. Defined.

(** A compressed file seen for the first time, in tail mode. *)
Lemma NewReader_for_gz_file :
  exists (log : list reader.LogEntry) (r : reader.Reader),
    reader.NewReader Scenario.reread_ab Scenario.stat_200 Scenario.header_ok
      Scenario.resolve_owner ".gz" Scenario.resolve_name
      (Scenario.factory false false 1000 None) Scenario.app_log_gz
      (Scenario.fp [x61]) = (log, Ok r).
Proof. eexists _, _. vm_compute. reflexivity. Defined.

Lemma NewReaderFromMetadata_stat_failure_witness :
  let m := Scenario.metadata [x61; x62; x63] 0 in
  let f := Scenario.factory true false 2 None in
  exists (m' : reader.Metadata) (log : list reader.LogEntry) (out : Outcome reader.Reader),
    reader.NewReaderFromMetadata Scenario.reread_ab Scenario.stat_fails
      Scenario.header_ok Scenario.resolve_owner f Scenario.app_log m = (m', log, out) /\
    log = [] /\ reader.Offset m' = reader.Offset m /\
    reader.FileAttributes m' = reader.FileAttributes m /\
    (out = Err (fmt_Errorf_w "stat" (errors_New "bad file descriptor")) <->
     (fingerprint.Len (reader.Fingerprint m) <= reader.FingerprintSize f \/
      exists shorter,
        reader.NewFingerprint Scenario.reread_ab f Scenario.app_log = inr shorter /\
        fingerprint.StartsWith (reader.Fingerprint m) shorter = true)).
Proof.
  intros m f. eexists _, _, _. split; [vm_compute; reflexivity|].
  apply (NewReaderFromMetadata_stat_failure Scenario.reread_ab Scenario.stat_fails
           Scenario.header_ok Scenario.resolve_owner f Scenario.app_log m).
  - reflexivity.
  - vm_compute. reflexivity.
Defined.

(** The header reader cannot be built. *)
Lemma NewReaderFromMetadata_header_failure :
  exists (m' : reader.Metadata) (log : list reader.LogEntry) (e : error),
    reader.NewReaderFromMetadata Scenario.reread_ab Scenario.stat_200
      Scenario.header_fails Scenario.resolve_owner
      (Scenario.factory true false 1000 (Some Scenario.header_cfg)) Scenario.app_log
      (Scenario.metadata [x61; x62] 1000) = (m', log, Err e).
Proof. eexists _, _, _. vm_compute. reflexivity. Defined.

Lemma NewReaderFromMetadata_failure_keeps_attributes_witness :
  let m := Scenario.metadata [x61; x62] 1000 in
  exists (m' : reader.Metadata) (log : list reader.LogEntry) (e : error),
    reader.NewReaderFromMetadata Scenario.reread_ab Scenario.stat_200
      Scenario.header_fails Scenario.resolve_owner
      (Scenario.factory true false 1000 (Some Scenario.header_cfg)) Scenario.app_log m
    = (m', log, Err e) /\
    reader.FileAttributes m' = reader.FileAttributes m.
Proof.
  intros m.
  destruct NewReaderFromMetadata_header_failure as (m' & log & e & Hcall).
  exists m', log, e. split; [exact Hcall|].
  apply (NewReaderFromMetadata_failure_keeps_attributes Scenario.reread_ab
           Scenario.stat_200 Scenario.header_fails Scenario.resolve_owner
           (Scenario.factory true false 1000 (Some Scenario.header_cfg))
           Scenario.app_log m m' log (Err e) Hcall).
  intros r. discriminate.
Defined.

Lemma NewReaderFromMetadata_offset_within_file_witness :
  exists (m' : reader.Metadata) (log : list reader.LogEntry) (r : reader.Reader),
    reader.NewReaderFromMetadata Scenario.reread_ab Scenario.stat_200
      Scenario.header_ok Scenario.resolve_owner
      (Scenario.factory false false 1000 None) Scenario.app_log
      (Scenario.metadata [x61; x62] 1000) = (m', log, Ok r) /\
    reader.Offset (reader.Reader_Metadata r) <= 200 /\
    (0 <= 1000 -> 0 <= reader.Offset (reader.Reader_Metadata r)).
Proof.
  destruct NewReaderFromMetadata_after_copytruncate as (m' & log & r & Hcall).
  exists m', log, r. split; [exact Hcall|].
  apply (NewReaderFromMetadata_offset_within_file Scenario.reread_ab Scenario.stat_200
           Scenario.header_ok Scenario.resolve_owner
           (Scenario.factory false false 1000 None) Scenario.app_log
           (Scenario.metadata [x61; x62] 1000) m' log r 200 Hcall).
  - reflexivity.
  - lia.
Defined.

Lemma NewReaderFromMetadata_idempotent_witness :
  exists (m' : reader.Metadata) (log : list reader.LogEntry) (r : reader.Reader),
    reader.NewReaderFromMetadata Scenario.reread_ab Scenario.stat_200
      Scenario.header_ok Scenario.resolve_owner
      (Scenario.factory false false 1000 None) Scenario.app_log
      (Scenario.metadata [x61; x62] 1000) = (m', log, Ok r) /\
    exists log' : list reader.LogEntry,
      reader.NewReaderFromMetadata Scenario.reread_ab Scenario.stat_200
        Scenario.header_ok Scenario.resolve_owner
        (Scenario.factory false false 1000 None) Scenario.app_log m' = (m', log', Ok r).
Proof.
  destruct NewReaderFromMetadata_after_copytruncate as (m' & log & r & Hcall).
  exists m', log, r. split; [exact Hcall|].
  exact (NewReaderFromMetadata_idempotent Scenario.reread_ab Scenario.stat_200
           Scenario.header_ok Scenario.resolve_owner
           (Scenario.factory false false 1000 None) Scenario.app_log
           (Scenario.metadata [x61; x62] 1000) m' log r Hcall).
Defined.

Lemma NewReaderFromMetadata_header_reader_witness :
  let f := Scenario.factory true false 1000 (Some Scenario.header_cfg) in
  let m := Scenario.metadata [x61; x62] 0 in
  exists (m' : reader.Metadata) (log : list reader.LogEntry) (r : reader.Reader),
    reader.NewReaderFromMetadata Scenario.reread_ab Scenario.stat_200
      Scenario.header_ok Scenario.resolve_owner f Scenario.app_log m = (m', log, Ok r) /\
    (reader.headerReader r = None <->
     reader.HeaderConfig f = None \/ reader.HeaderFinalized m = true) /\
    (forall hr, reader.headerReader r = Some hr ->
       exists cfg, reader.HeaderConfig f = Some cfg /\ Scenario.header_ok cfg = inr hr).
Proof.
  intros f m.
  destruct NewReaderFromMetadata_with_header as (m' & log & r & Hcall).
  exists m', log, r. split; [exact Hcall|].
  exact (NewReaderFromMetadata_header_reader Scenario.reread_ab Scenario.stat_200
           Scenario.header_ok Scenario.resolve_owner f Scenario.app_log m m' log r Hcall).
Defined.

Lemma NewReaderFromMetadata_header_not_built_witness :
  let f := Scenario.factory true false 1000 None in
  let m := Scenario.metadata [x61; x62] 0 in
  reader.NewReaderFromMetadata Scenario.reread_ab Scenario.stat_200
    Scenario.header_ok Scenario.resolve_owner f Scenario.app_log m
  = reader.NewReaderFromMetadata Scenario.reread_ab Scenario.stat_200
      Scenario.header_fails Scenario.resolve_owner f Scenario.app_log m.
Proof.
  intros f m.
  apply (NewReaderFromMetadata_header_not_built Scenario.reread_ab Scenario.stat_200
           Scenario.header_ok Scenario.header_fails Scenario.resolve_owner
           f Scenario.app_log m).
  left. reflexivity.
Defined.

Lemma NewReaderFromMetadata_fresh_fingerprint_witness :
  let f := Scenario.factory true false 1 None in
  let m := Scenario.metadata [x61; x62] 0 in
  fingerprint.Len (reader.Fingerprint m) > reader.FingerprintSize f /\
  reader.NewReaderFromMetadata Scenario.reread_ab Scenario.stat_200
    Scenario.header_ok Scenario.resolve_owner f Scenario.app_log m =
  (let '(s, out) :=
     reader.continueConstruction Scenario.stat_200 Scenario.header_ok
       Scenario.resolve_owner f Scenario.app_log
       {| reader.meta := m; reader.logged := [] |} in
   (reader.meta s, reader.logged s, out)) /\
  reader.Fingerprint
    (reader.NewReaderFromMetadata Scenario.reread_ab Scenario.stat_200
       Scenario.header_ok Scenario.resolve_owner f Scenario.app_log m).1.1
  = reader.Fingerprint m.
Proof.
  intros f m. split; [vm_compute; reflexivity|].
  apply (NewReaderFromMetadata_fresh_fingerprint Scenario.reread_ab Scenario.stat_200
           Scenario.header_ok Scenario.resolve_owner f Scenario.app_log m).
  reflexivity.
Defined.

Lemma NewReader_starting_offset_witness :
  exists (log : list reader.LogEntry) (r : reader.Reader),
    reader.NewReader Scenario.reread_ab Scenario.stat_200 Scenario.header_ok
      Scenario.resolve_owner ".gz" Scenario.resolve_name
      (Scenario.factory false false 1000 None) Scenario.app_log_gz
      (Scenario.fp [x61]) = (log, Ok r) /\
    exists fileSize : Z,
      Scenario.stat_200 Scenario.app_log_gz = inr fileSize /\
      reader.Offset (reader.Reader_Metadata r) = fileSize.
Proof.
  destruct NewReader_for_gz_file as (log & r & Hcall).
  exists log, r. split; [exact Hcall|].
  exact (NewReader_starting_offset Scenario.reread_ab Scenario.stat_200
           Scenario.header_ok Scenario.resolve_owner ".gz" Scenario.resolve_name
           (Scenario.factory false false 1000 None) Scenario.app_log_gz
           (Scenario.fp [x61]) log r Hcall).
Defined.

Lemma NewReader_attributes_witness :
  exists (log : list reader.LogEntry) (r : reader.Reader),
    reader.NewReader Scenario.reread_ab Scenario.stat_200 Scenario.header_ok
      Scenario.resolve_owner ".gz" Scenario.resolve_name
      (Scenario.factory false false 1000 None) Scenario.app_log_gz
      (Scenario.fp [x61]) = (log, Ok r) /\
    exists (first : option (gmap string any)) (second : gmap string any),
      Scenario.resolve_name Scenario.app_log_gz = inr first /\
      Scenario.resolve_owner Scenario.app_log_gz = inr second /\
      forall k : string,
        reader.attribute (reader.Reader_Metadata r) k =
        match second !! k with
        | Some v => Some v
        | None => first ≫= (.!! k)
        end.
Proof.
  destruct NewReader_for_gz_file as (log & r & Hcall).
  exists log, r. split; [exact Hcall|].
  exact (NewReader_attributes Scenario.reread_ab Scenario.stat_200
           Scenario.header_ok Scenario.resolve_owner ".gz" Scenario.resolve_name
           (Scenario.factory false false 1000 None) Scenario.app_log_gz
           (Scenario.fp [x61]) log r Hcall).
Defined.

Lemma NewReader_gzip_file_type_witness :
  exists (log : list reader.LogEntry) (r : reader.Reader),
    reader.NewReader Scenario.reread_ab Scenario.stat_200 Scenario.header_ok
      Scenario.resolve_owner ".gz" Scenario.resolve_name
      (Scenario.factory false false 1000 None) Scenario.app_log_gz
      (Scenario.fp [x61]) = (log, Ok r) /\
    (reader.FileType (reader.Reader_Metadata r) = ".gz"%string \/
     reader.FileType (reader.Reader_Metadata r) = EmptyString) /\
    (reader.FileType (reader.Reader_Metadata r) = ".gz"%string <->
     exists base : string, Name Scenario.app_log_gz = String.append base ".gz").
Proof.
  destruct NewReader_for_gz_file as (log & r & Hcall).
  exists log, r. split; [exact Hcall|].
  apply (NewReader_gzip_file_type Scenario.reread_ab Scenario.stat_200
           Scenario.header_ok Scenario.resolve_owner ".gz" Scenario.resolve_name
           (Scenario.factory false false 1000 None) Scenario.app_log_gz
           (Scenario.fp [x61]) log r "gz").
  - reflexivity.
  - simpl. repeat (constructor; [split; discriminate|]). constructor.
  - exact Hcall.
Defined.

Lemma lostReaders_iff_witness :
  let m := Scenario.manager false [Scenario.old_ab]
             [Scenario.new_other; Scenario.new_a] in
  Scenario.old_ab ∈ fileconsumer.lostReaders (fileconsumer.readLostFiles Scenario.moved m) <->
  Scenario.old_ab ∈ fileconsumer.PreviousPollFiles (fileconsumer.tracker m) /\
  (forall n, n ∈ fileconsumer.CurrentPollFiles (fileconsumer.tracker m) ->
     fingerprint.StartsWith (reader.Fingerprint (reader.Reader_Metadata n))
       (reader.Fingerprint (reader.Reader_Metadata Scenario.old_ab)) = false) /\
  ((exists n, n ∈ fileconsumer.CurrentPollFiles (fileconsumer.tracker m) /\
              reader.NameEquals n Scenario.old_ab = true) ->
   Scenario.moved Scenario.old_ab = true).
Proof.
  intros m.
  apply (lostReaders_iff Scenario.moved m Scenario.old_ab).
  reflexivity.
Defined.

Lemma lostReaders_order_of_current_witness :
  fileconsumer.lostReaders
    (fileconsumer.readLostFiles Scenario.moved
       (Scenario.manager false [Scenario.old_ab] [Scenario.new_other; Scenario.new_a]))
  = fileconsumer.lostReaders
      (fileconsumer.readLostFiles Scenario.moved
         (Scenario.manager false [Scenario.old_ab] [Scenario.new_a; Scenario.new_other])).
Proof.
  apply (lostReaders_order_of_current Scenario.moved
           (Scenario.manager false [Scenario.old_ab] [Scenario.new_other; Scenario.new_a])
           (Scenario.manager false [Scenario.old_ab] [Scenario.new_a; Scenario.new_other])).
  - reflexivity.
  - reflexivity.
  - simpl. apply perm_swap.
Defined.

Lemma lostReaders_more_current_witness :
  Scenario.old_ab ∈ fileconsumer.lostReaders
    (fileconsumer.readLostFiles Scenario.moved
       (Scenario.manager false [Scenario.old_ab] [Scenario.new_other])).
Proof.
  apply (lostReaders_more_current Scenario.moved
           (Scenario.manager false [Scenario.old_ab] [Scenario.new_other])
           (Scenario.manager false [Scenario.old_ab] [Scenario.new_other; Scenario.new_a])
           Scenario.old_ab).
  - reflexivity.
  - reflexivity.
  - simpl. intros n Hn. apply elem_of_cons in Hn as [->|Hn]; [left|inversion Hn].
  - assert (fileconsumer.lostReaders
              (fileconsumer.readLostFiles Scenario.moved
                 (Scenario.manager false [Scenario.old_ab]
                    [Scenario.new_other; Scenario.new_a]))
            = [Scenario.old_ab]) as -> by (vm_compute; reflexivity).
    left.
Defined.

Lemma readLostFiles_no_current_files_witness :
  let m := Scenario.manager false [Scenario.old_ab; Scenario.new_other] [] in
  fileconsumer.lostReaders (fileconsumer.readLostFiles Scenario.truncated m)
  = [Scenario.old_ab; Scenario.new_other] /\
  fileconsumer.readToEnd (fileconsumer.readLostFiles Scenario.truncated m)
  = [Scenario.old_ab; Scenario.new_other] /\
  fileconsumer.debugLog (fileconsumer.readLostFiles Scenario.truncated m)
  = map fileconsumer.Debug_reading_lost_file [Scenario.old_ab; Scenario.new_other].
Proof.
  intros m.
  apply (readLostFiles_no_current_files Scenario.truncated m); reflexivity.
Defined.
